(** * Signup: the registration service

    A shallow embedding of the request validation middleware
    ([middleware/validation.js]) and of the two route handlers of
    [routes/auth.js], [POST /register] and [GET /users], with the
    properties of the registration and listing flows proved over it.

    Layout. Definitions: JavaScript strings and character classes; the
    regular expressions of the schema with a matcher for them; what the
    service takes from its libraries; the part of Joi the schema uses;
    the middleware; the store and the handlers; the vocabulary of the
    statements; the bodies and stores of the scenarios. Properties: the
    matcher and the patterns, the validator, the handlers, then the
    theorems on validation, registration, listing and the password
    pattern, and the scenarios.

    A request body is a JSON object, a finite map from keys to values
    ([express.json()] hands the handlers one); a stored document is one
    too. The store is the list of its documents in insertion order. *)

From Stdlib Require Import Strings.String Strings.Ascii NArith ZArith Lia.
From stdpp Require Import gmap list fin_maps.

(** ** JavaScript strings

    A JavaScript string is a sequence of UTF-16 code units; [length] is
    the [.length] of the string, and [===] on strings is equality of the
    sequences. *)

Abbreviation jsstring := (list N).

Definition str (s : string) : jsstring :=
  map N_of_ascii (list_ascii_of_string s).
Arguments str s%_string : simpl never.

Module Chars.

Local Open Scope N_scope.

Definition in_range (lo hi c : N) : bool := (lo <=? c) && (c <=? hi).

Definition one_of (cs : jsstring) (c : N) : bool := existsb (N.eqb c) cs.

(** [[a-z]], [[A-Z]], [\d] (which is [[0-9]] without the [u] flag). *)
Definition lower (c : N) : bool := in_range 97 122 c.
Definition upper (c : N) : bool := in_range 65 90 c.
Definition digit (c : N) : bool := in_range 48 57 c.

(** [[@$!%*?&]] *)
Definition special (c : N) : bool := one_of (str "@$!%*?&") c.

(** [\s]: the white space and line terminator code units of ECMAScript. *)
Definition space (c : N) : bool :=
  in_range 9 13 c || one_of [32; 160; 5760; 8232; 8233; 8239; 8287; 12288; 65279] c
  || in_range 8192 8202 c.

(** [.] without the [s] flag: anything but a line terminator. *)
Definition line_terminator (c : N) : bool := one_of [10; 13; 8232; 8233] c.
Definition dot (c : N) : bool := negb (line_terminator c).

(** [[a-zA-Z\s]] *)
Definition letter_or_space (c : N) : bool := lower c || upper c || space c.

(** [[A-Za-z\d@$!%*?&]] *)
Definition password_char (c : N) : bool :=
  upper c || lower c || digit c || special c.

End Chars.

(** ** Regular expressions

    The fragment of ECMAScript regular expressions the schema is written
    in: [^] and [$] (no [m] flag), character classes, [*], [+] and [{n}]
    over a class, positive lookahead and concatenation. *)

Module Regex.

Inductive regex :=
| Bol                                  (* ^ *)
| Eol                                  (* $ *)
| Cls (p : N → bool)                   (* [...] , \d, . *)
| Star (p : N → bool)                  (* [...]* *)
| Plus (p : N → bool)                  (* [...]+ *)
| Rep (n : nat) (p : N → bool)         (* [...]{n} *)
| Ahead (r : regex)                    (* (?=r) *)
| Cat (r1 r2 : regex).

(** A position in the subject: the index reached and what is left to
    read. *)
Abbreviation pos := (nat * jsstring)%type.

Fixpoint star_ends (p : N → bool) (i : nat) (s : jsstring) : list pos :=
  (i, s) ::
  match s with
  | c :: s' => if p c then star_ends p (S i) s' else []
  | [] => []
  end.

Fixpoint rep_ends (p : N → bool) (n : nat) (i : nat) (s : jsstring) : list pos :=
  match n with
  | O => [(i, s)]
  | S n' =>
      match s with
      | c :: s' => if p c then rep_ends p n' (S i) s' else []
      | [] => []
      end
  end.

Definition cls_ends (p : N → bool) (i : nat) (s : jsstring) : list pos :=
  match s with
  | c :: s' => if p c then [(S i, s')] else []
  | [] => []
  end.

(** [ends r st]: every position at which a match of [r] started at
    [st] can end (backtracking explores all of them). *)
Fixpoint ends (r : regex) (st : pos) : list pos :=
  match r with
  | Bol => match st.1 with O => [st] | S _ => [] end
  | Eol => match st.2 with [] => [st] | _ :: _ => [] end
  | Cls p => cls_ends p st.1 st.2
  | Star p => star_ends p st.1 st.2
  | Plus p => st' ← cls_ends p st.1 st.2; star_ends p st'.1 st'.2
  | Rep n p => rep_ends p n st.1 st.2
  | Ahead r' => match ends r' st with [] => [] | _ :: _ => [st] end
  | Cat r1 r2 => st' ← ends r1 st; ends r2 st'
  end.

Definition matches_at (r : regex) (st : pos) : bool :=
  match ends r st with [] => false | _ :: _ => true end.

(** [RegExp.prototype.test]: is there a match starting at some index? *)
Definition test (r : regex) (s : jsstring) : bool :=
  existsb (λ i, matches_at r (i, drop i s)) (seq 0 (S (length s))).

Infix "+++" := Cat (at level 60, right associativity).

End Regex.

Import Regex.

(** The three patterns of [registrationSchema]. *)

(** [/^[a-zA-Z\s]+$/] (the schema writes it twice) *)
Definition name_pattern : regex :=
  Bol +++ Plus Chars.letter_or_space +++ Eol.

(** [/^[0-9]{10}$/] *)
Definition phone_pattern : regex :=
  Bol +++ Rep 10 Chars.digit +++ Eol.

(** [/^(?=.*[a-z])(?=.*[A-Z])(?=.*\d)(?=.*[@$!%*?&])[A-Za-z\d@$!%*?&]/] *)
Definition password_pattern : regex :=
  Bol
  +++ Ahead (Star Chars.dot +++ Cls Chars.lower)
  +++ Ahead (Star Chars.dot +++ Cls Chars.upper)
  +++ Ahead (Star Chars.dot +++ Cls Chars.digit)
  +++ Ahead (Star Chars.dot +++ Cls Chars.special)
  +++ Cls Chars.password_char.

(** ** What the service takes from its libraries

    [other]: the JSON values that are not strings (null, booleans,
    numbers, arrays, objects). The code only asks of them that they are
    not strings and, through [Joi.ref], whether two of them are deeply
    equal; [other] is those values up to that equality.
    [isEmail]: the address check behind [Joi.string().email()]; the
    empty string is not an address.
    [hash]: the salted one-way hash the store applies to a password
    (salt first). *)

Class Library := {
  other : Type;
  other_eq_dec :: EqDecision other;
  isEmail : jsstring → bool;
  isEmail_empty : isEmail [] = false;
  hash : jsstring → jsstring → jsstring
}.

(** A JSON value as the validator sees it; [undefined] is the [None] of
    [option JVal]. *)
Inductive JVal `{Library} :=
| JStr (s : jsstring)
| JOther (o : other).

#[global] Instance JVal_eq_dec `{Library} : EqDecision JVal.
Proof. solve_decision. Defined.

(** A JSON object: the request body, a stored document. *)
Abbreviation Doc := (gmap jsstring JVal).

(** Messages are the literal texts of the sources; the default texts of
    Joi, which the schema leaves in place for two error types, are kept
    symbolic. *)
Inductive ErrType :=
| any_required | any_only
| string_base | string_empty | string_min | string_max
| string_pattern_base | string_email
| object_unknown.

Inductive Message :=
| Text (s : jsstring)
| JoiDefault (label : jsstring) (t : ErrType).

#[global] Instance ErrType_eq_dec : EqDecision ErrType.
Proof. solve_decision. Defined.

#[global] Instance Message_eq_dec : EqDecision Message.
Proof. solve_decision. Defined.

(** ** Joi, as far as [registrationSchema] uses it *)

Module Joi.
Section Joi.
Context `{Library}.

Inductive Rule :=
| Min (limit : nat)          (* .min(limit) *)
| Max (limit : nat)          (* .max(limit) *)
| Pattern (r : regex)        (* .pattern(r) *)
| Email.                     (* .email() *)

(** [Joi.string()] with its rules in the order they were added, the
    reference of [.valid(Joi.ref(key))], the presence flag and the
    texts of [.messages({...})]. *)
Record StringSchema := {
  rules : list Rule;
  valid_ref : option jsstring;
  required : bool;
  messages : list (ErrType * jsstring)
}.

Record Prefs := { abortEarly : bool; stripUnknown : bool }.

(** One entry of [error.details]; the schema is flat, so [path] is the
    one-element array of the key and [d_key] is [path[0]]. *)
Record Detail := { d_message : Message; d_key : jsstring; d_type : ErrType }.

Record Result := { error : option (list Detail); value : Doc }.

Definition rule_type (r : Rule) : ErrType :=
  match r with
  | Min _ => string_min
  | Max _ => string_max
  | Pattern _ => string_pattern_base
  | Email => string_email
  end.

Definition rule_ok (r : Rule) (s : jsstring) : bool :=
  match r with
  | Min limit => limit <=? length s
  | Max limit => length s <=? limit
  | Pattern re => test re s
  | Email => isEmail s
  end.

Fixpoint lookup_message (t : ErrType) (ms : list (ErrType * jsstring)) : option jsstring :=
  match ms with
  | [] => None
  | (t', m) :: ms' => if decide (t' = t) then Some m else lookup_message t ms'
  end.

Definition createError (sch : StringSchema) (key : jsstring) (t : ErrType) : Detail :=
  {| d_message := match lookup_message t (messages sch) with
                  | Some m => Text m
                  | None => JoiDefault key t
                  end;
     d_key := key;
     d_type := t |}.

(** The rules, all of them: one error for each rule the string fails. *)
Definition validate_rules (sch : StringSchema) (key : jsstring) (s : jsstring) : list Detail :=
  flat_map (λ r, if rule_ok r s then [] else [createError sch key (rule_type r)])
           (rules sch).

Definition allows_empty (sch : StringSchema) : bool :=
  existsb (λ r, match r with Min O => true | _ => false end) (rules sch).

(** The base type check of [Joi.string()]: an error here ends the
    validation of the key, the rules are not run. *)
Definition validate_base (sch : StringSchema) (key : jsstring) (v : JVal) : list Detail :=
  match v with
  | JOther _ => [createError sch key string_base]
  | JStr [] =>
      if allows_empty sch then validate_rules sch key []
      else [createError sch key string_empty]
  | JStr s => validate_rules sch key s
  end.

(** One key of the object: presence, then the allowed values (a match
    accepts the value at once; without a match [any.only] is reported
    and, [abortEarly] being off, validation goes on), then the base
    type and the rules. [ancestors] is the object the reference is
    resolved in. *)
Definition validate_key (ancestors : Doc) (key : jsstring) (sch : StringSchema)
    : list Detail :=
  match ancestors !! key with
  | None => if required sch then [createError sch key any_required] else []
  | Some v =>
      match valid_ref sch with
      | None => validate_base sch key v
      | Some ref =>
          if decide (ancestors !! ref = Some v) then []
          else createError sch key any_only :: validate_base sch key v
      end
  end.

Definition is_known (schema : list (jsstring * StringSchema)) (kv : jsstring * JVal) : bool :=
  bool_decide (kv.1 ∈ schema.*1).

(** [schema.validate(value, prefs)] for [Joi.object({...})]: the keys
    in the order of the schema (an object schema is the list of its
    keys with their schemas), then the keys the schema does not name.
    The input is not modified; [value] is a copy. *)
Definition validate (schema : list (jsstring * StringSchema)) (input : Doc) (prefs : Prefs) : Result :=
  let children := flat_map (λ ks, validate_key input ks.1 ks.2) schema in
  let unknown :=
    if stripUnknown prefs then []
    else (λ kv, {| d_message := JoiDefault kv.1 object_unknown;
                   d_key := kv.1; d_type := object_unknown |})
           <$> map_to_list (filter (λ kv, negb (is_known schema kv)) input) in
  let errors := children ++ unknown in
  {| error := match (if abortEarly prefs then take 1 errors else errors) with
              | [] => None
              | d :: ds => Some (d :: ds)
              end;
     value := if stripUnknown prefs
              then filter (λ kv, is_known schema kv) input
              else input |}.

End Joi.
End Joi.

(** ** middleware/validation.js *)

Section Validation.
Context `{Library}.

Import Joi.

(** The six keys of [registrationSchema], one [Joi.string()...] each. *)

Definition firstName_schema : StringSchema :=
  {| rules := [Min 2; Max 50; Pattern name_pattern];
     valid_ref := None;
     required := true;
     messages := [
       (string_min, str "First name must be at least 2 characters long");
       (string_max, str "First name cannot exceed 50 characters");
       (string_pattern_base, str "First name can only contain letters and spaces");
       (any_required, str "First name is required")] |}.

Definition lastName_schema : StringSchema :=
  {| rules := [Min 2; Max 50; Pattern name_pattern];
     valid_ref := None;
     required := true;
     messages := [
       (string_min, str "Last name must be at least 2 characters long");
       (string_max, str "Last name cannot exceed 50 characters");
       (string_pattern_base, str "Last name can only contain letters and spaces");
       (any_required, str "Last name is required")] |}.

Definition email_schema : StringSchema :=
  {| rules := [Email];
     valid_ref := None;
     required := true;
     messages := [
       (string_email, str "Please enter a valid email address");
       (any_required, str "Email is required")] |}.

Definition phoneNo_schema : StringSchema :=
  {| rules := [Pattern phone_pattern];
     valid_ref := None;
     required := true;
     messages := [
       (string_pattern_base, str "Phone number must be exactly 10 digits");
       (any_required, str "Phone number is required")] |}.

Definition createPassword_schema : StringSchema :=
  {| rules := [Min 6; Max 128; Pattern password_pattern];
     valid_ref := None;
     required := true;
     messages := [
       (string_min, str "Password must be at least 6 characters long");
       (string_max, str "Password cannot exceed 128 characters");
       (string_pattern_base, str "Password must contain at least one uppercase letter, one lowercase letter, one number, and one special character");
       (any_required, str "Password is required")] |}.

Definition confirmPassword_schema : StringSchema :=
  {| rules := [];
     valid_ref := Some (str "createPassword");
     required := true;
     messages := [
       (any_only, str "Confirm password must match the password");
       (any_required, str "Confirm password is required")] |}.

Definition registrationSchema : list (jsstring * StringSchema) := [
  (str "firstName", firstName_schema);
  (str "lastName", lastName_schema);
  (str "email", email_schema);
  (str "phoneNo", phoneNo_schema);
  (str "createPassword", createPassword_schema);
  (str "confirmPassword", confirmPassword_schema)
].

(** The JSON bodies of the responses. *)
Record FieldError := { field : jsstring; message : Message }.

Inductive Data :=
| One (d : Doc)
| Many (ds : list Doc).

Record Response := {
  status : Z;
  success : bool;
  r_message : Message;
  errors : option (list FieldError);
  data : option Data
}.

(** What a middleware does with a request: it answers, or it calls
    [next()] and the request goes on with the body it then has. *)
Inductive Middleware :=
| Respond (r : Response)
| Next (body : Doc).

Definition validateRegistration (body : Doc) : Middleware :=
  let result :=
    validate registrationSchema body {| abortEarly := false; stripUnknown := true |} in
  match error result with
  | Some details =>
      Respond {| status := 400;
                 success := false;
                 r_message := Text (str "Validation failed");
                 errors := Some (map (λ detail, {| field := d_key detail;
                                                   message := d_message detail |})
                                     details);
                 data := None |}
  | None =>
      (* only [error] is taken from the result: [req.body] is not reassigned *)
      Next body
  end.

End Validation.

(** ** The store

    The collection of user documents, in insertion order, and what the
    handlers see of one request to it. *)

(** A JavaScript error, by the properties the [catch] block reads:
    [error.name], [error.code] (a number, or none), the keys of
    [error.keyPattern] (the key pattern of an index, which has at least
    one key) and, for [error.errors], the [path] and [message] of its
    values. *)
Record JsError := {
  e_name : jsstring;
  e_code : option Z;
  e_keyPattern : option (jsstring * list jsstring);
  e_errors : option (list (jsstring * jsstring))
}.

(** What the surroundings decide for one request: whether a call to the
    store throws (the store is down, or, for [save], it refuses the
    write: its validation, or a unique index on which another writer was
    first); which of the documents that match a query the store reaches
    first ([0] is the natural order of the collection, the order the
    MongoDB manual gives for [findOne]); and the identifier, the time and
    the salt a new record gets. *)
Record Env := {
  findOne_throws : option JsError;
  findOne_plan : nat;
  save_throws : option JsError;
  find_throws : option JsError;
  new_id : jsstring;
  now : jsstring;
  salt : jsstring
}.

(** The result of an awaited call. *)
Inductive Try (A : Type) :=
| Returns (a : A)
| Throws (e : JsError).
Arguments Returns {A} a.
Arguments Throws {A} e.

#[global] Instance Try_ret : MRet Try := λ A a, Returns a.
#[global] Instance Try_bind : MBind Try := λ A B f m,
  match m with
  | Returns a => f a
  | Throws e => Throws e
  end.

Definition await {A} (throws : option JsError) (a : A) : Try A :=
  match throws with
  | Some e => Throws e
  | None => Returns a
  end.

Module User.
Section User.
Context `{Library}.

(** Mongoose, [User.findOne({ $or: [{ email }, { phoneNo }] })]: one of
    the documents of the collection that have the email or the phone
    number asked for, the one the store reaches first; none when no
    document has either. *)
Definition findOne (env : Env) (db : list Doc) (email phoneNo : option JVal)
    : option Doc :=
  let matching :=
    filter (λ d, d !! str "email" = email ∨ d !! str "phoneNo" = phoneNo) db in
  matching !! (findOne_plan env `mod` length matching).

Definition set (key : jsstring) (v : option JVal) (d : Doc) : Doc :=
  match v with
  | Some x => <[key := x]> d
  | None => d
  end.

(** [new User({ firstName, lastName, email, phoneNo, password })] *)
Definition new (firstName lastName email phoneNo password : option JVal) : Doc :=
  set (str "firstName") firstName
    (set (str "lastName") lastName
       (set (str "email") email
          (set (str "phoneNo") phoneNo
             (set (str "password") password ∅)))).

(** Modelled from the spec: [models/User.js] is not among the sources.
    Before storing, the password is transformed by a one-way hash with
    a per-record salt, and the raw password is discarded. *)
Definition hashPassword (salt : jsstring) (user : Doc) : Doc :=
  match user !! str "password" with
  | Some (JStr raw) => <[str "password" := JStr (hash salt raw)]> user
  | _ => user
  end.

(** Modelled from the spec: [models/User.js] is not among the sources.
    [create(fields)]: the record gets its identifier and its two
    timestamps, its password is hashed, and it joins the collection. *)
Definition save (env : Env) (db : list Doc) (user : Doc) : Try (Doc * list Doc) :=
  let saved :=
    <[str "_id" := JStr (new_id env)]>
      (<[str "createdAt" := JStr (now env)]>
         (<[str "updatedAt" := JStr (now env)]>
            (hashPassword (salt env) user))) in
  await (save_throws env) (saved, db ++ [saved]).

(** Modelled from the spec: [models/User.js] is not among the sources.
    The created record is returned with the password field omitted. *)
Definition toJSON (user : Doc) : Doc := delete (str "password") user.

(** Mongoose, [User.find().select('-password')]: every document of the
    collection, the field [password] excluded from each. *)
Definition find_select_minus (key : jsstring) (env : Env) (db : list Doc)
    : Try (list Doc) :=
  await (find_throws env) (delete key <$> db).

End User.
End User.

(** ** routes/auth.js *)

Section Routes.
Context `{Library}.

(** The end of a handler: a response was sent, or an exception left
    the handler and none was. *)
Inductive Outcome :=
| Responded (r : Response)
| Escaped.

(** The [try] block of [router.post('/register', ...)]. *)
Definition register_try (env : Env) (db : list Doc) (body : Doc)
    : Try (Response * list Doc) :=
  let firstName := body !! str "firstName" in
  let lastName := body !! str "lastName" in
  let email := body !! str "email" in
  let phoneNo := body !! str "phoneNo" in
  let createPassword := body !! str "createPassword" in
  existingUser ← await (findOne_throws env) (User.findOne env db email phoneNo);
  match existingUser with
  | Some existingUser =>
      let by_email := bool_decide (existingUser !! str "email" = email) in
      mret ({| status := 400;
               success := false;
               r_message := Text (str "User already exists");
               errors := Some [
                 {| field := if by_email then str "email" else str "phoneNo";
                    message := if by_email
                               then Text (str "Email is already registered")
                               else Text (str "Phone number is already registered") |}];
               data := None |}, db)
  | None =>
      let user := User.new firstName lastName email phoneNo createPassword in
      saved ← User.save env db user;
      mret ({| status := 201;
               success := true;
               r_message := Text (str "User registered successfully");
               errors := None;
               data := Some (One (User.toJSON saved.1)) |}, saved.2)
  end.

(** The [catch] block. [Object.values] and [Object.keys] throw on
    [undefined]. *)
Definition register_catch (error : JsError) : Outcome :=
  if decide (e_name error = str "ValidationError") then
    match e_errors error with
    | Some errs =>
        Responded {| status := 400;
                     success := false;
                     r_message := Text (str "Validation failed");
                     errors := Some (map (λ err, {| field := err.1;
                                                    message := Text err.2 |}) errs);
                     data := None |}
    | None => Escaped
    end
  else if decide (e_code error = Some 11000%Z) then
    match e_keyPattern error with
    | Some (field, _) =>
        Responded {| status := 400;
                     success := false;
                     r_message := Text (str "User already exists");
                     errors := Some [
                       {| field := field;
                          message := Text (field ++ str " is already registered") |}];
                     data := None |}
    | None => Escaped
    end
  else
    Responded {| status := 500;
                 success := false;
                 r_message := Text (str "Internal server error");
                 errors := Some [
                   {| field := str "server";
                      message := Text (str "Something went wrong. Please try again later.") |}];
                 data := None |}.

Definition registerHandler (env : Env) (db : list Doc) (body : Doc)
    : Outcome * list Doc :=
  match register_try env db body with
  | Returns (r, db') => (Responded r, db')
  | Throws e => (register_catch e, db)
  end.

(** [router.post('/register', validateRegistration, async (req, res) => ...)] *)
Definition post_register (env : Env) (db : list Doc) (body : Doc)
    : Outcome * list Doc :=
  match validateRegistration body with
  | Respond r => (Responded r, db)
  | Next body' => registerHandler env db body'
  end.

(** [router.get('/users', ...)] *)
Definition get_users (env : Env) (db : list Doc) : Response * list Doc :=
  match User.find_select_minus (str "password") env db with
  | Returns users =>
      ({| status := 200;
          success := true;
          r_message := Text (str "Users retrieved successfully");
          errors := None;
          data := Some (Many users) |}, db)
  | Throws _ =>
      ({| status := 500;
          success := false;
          r_message := Text (str "Internal server error");
          errors := None;
          data := None |}, db)
  end.

End Routes.

(** ** Vocabulary of the statements *)

(** [p* X] read from the start of [s]: a character of class [X] with
    only characters of class [p] before it. *)
Fixpoint reach (p X : N → bool) (s : jsstring) : bool :=
  match s with
  | [] => false
  | c :: s' => X c || (p c && reach p X s')
  end.

Section Statements.
Context `{Library}.

Import Joi.

(** The options of the middleware. *)
Definition prefs : Prefs := {| abortEarly := false; stripUnknown := true |}.

(** [error.details] for a body, and the [errors] array the middleware
    makes of it. *)
Definition details (body : Doc) : list Detail :=
  flat_map (λ ks, validate_key body ks.1 ks.2) registrationSchema.

Definition as_field_error (detail : Detail) : FieldError :=
  {| field := d_key detail; message := d_message detail |}.

Definition reported (body : Doc) : list FieldError :=
  as_field_error <$> details body.

Definition pairs_of (f : jsstring) (body : Doc) : list FieldError :=
  filter (λ e, field e = f) (reported body).

(** The responses of the two routes. *)
Definition validation_failure (errs : list FieldError) : Response :=
  {| status := 400; success := false;
     r_message := Text (str "Validation failed");
     errors := Some errs; data := None |}.

Definition conflict (f : jsstring) (m : Message) : Response :=
  {| status := 400; success := false;
     r_message := Text (str "User already exists");
     errors := Some [{| field := f; message := m |}]; data := None |}.

Definition created (d : Doc) : Response :=
  {| status := 201; success := true;
     r_message := Text (str "User registered successfully");
     errors := None; data := Some (One d) |}.

Definition server_error : Response :=
  {| status := 500; success := false;
     r_message := Text (str "Internal server error");
     errors := Some [{| field := str "server";
                        message := Text (str "Something went wrong. Please try again later.") |}];
     data := None |}.

Definition listing (ds : list Doc) : Response :=
  {| status := 200; success := true;
     r_message := Text (str "Users retrieved successfully");
     errors := None; data := Some (Many ds) |}.

(** The rules of the Validator as the specification lists them, field by
    field: a rule belongs to a field and a body violates it or not. A
    missing field violates [required] only; a value that is there
    violates a rule on strings when it is not a string that meets it. *)
Record SpecRule := { sr_field : jsstring; sr_violated : Doc → bool }.

Definition required_rule (f : jsstring) : SpecRule :=
  {| sr_field := f; sr_violated := λ body, bool_decide (body !! f = None) |}.

Definition string_rule (f : jsstring) (ok : jsstring → bool) : SpecRule :=
  {| sr_field := f;
     sr_violated := λ body,
       match body !! f with
       | Some (JStr s) => negb (ok s)
       | Some (JOther _) => true
       | None => false
       end |}.

Definition equal_rule (f g : jsstring) : SpecRule :=
  {| sr_field := f;
     sr_violated := λ body,
       match body !! f with
       | Some v => negb (bool_decide (body !! g = Some v))
       | None => false
       end |}.

Definition length_between (lo hi : nat) (s : jsstring) : bool :=
  (lo <=? length s) && (length s <=? hi).

Definition spec_rules : list SpecRule := [
  required_rule (str "firstName");
  string_rule (str "firstName") (length_between 2 50);
  string_rule (str "firstName") (test name_pattern);
  required_rule (str "lastName");
  string_rule (str "lastName") (length_between 2 50);
  string_rule (str "lastName") (test name_pattern);
  required_rule (str "email");
  string_rule (str "email") isEmail;
  required_rule (str "phoneNo");
  string_rule (str "phoneNo") (test phone_pattern);
  required_rule (str "createPassword");
  string_rule (str "createPassword") (length_between 6 128);
  string_rule (str "createPassword") (test password_pattern);
  required_rule (str "confirmPassword");
  equal_rule (str "confirmPassword") (str "createPassword")
].

(** The rules of field [f] that [body] violates. *)
Definition violated_rules (f : jsstring) (body : Doc) : list SpecRule :=
  filter (λ r, sr_violated r body = true) (filter (λ r, sr_field r = f) spec_rules).

(** All the violations of a body, in the order of the rules. *)
Definition violations (body : Doc) : list SpecRule :=
  filter (λ r, sr_violated r body = true) spec_rules.

(** The password rule read as the sentence of the specification: length
    6 to 128 and one character of each of the four classes. *)
Definition has_four_classes (s : jsstring) : bool :=
  existsb Chars.lower s && existsb Chars.upper s
  && existsb Chars.digit s && existsb Chars.special s.

(** What the code asks of a password: the rules of the key, run on a
    string. *)
Definition createPassword_accepts (s : jsstring) : bool :=
  length_between 6 128 s && test password_pattern s.

(** A stored record whose password is the hash of some password. *)
Definition hashed (d : Doc) : Prop :=
  ∃ salt raw, d !! str "password" = Some (JStr (hash salt raw)).

(** The record the handler builds from a body, and what the store keeps
    of it. *)
Definition new_user (body : Doc) : Doc :=
  User.new (body !! str "firstName") (body !! str "lastName")
    (body !! str "email") (body !! str "phoneNo") (body !! str "createPassword").

Definition saved_user (env : Env) (body : Doc) : Doc :=
  <[str "_id" := JStr (new_id env)]>
    (<[str "createdAt" := JStr (now env)]>
       (<[str "updatedAt" := JStr (now env)]>
          (User.hashPassword (salt env) (new_user body)))).

(** No stored record has the email or the phone number of the body. *)
Definition fresh (db : list Doc) (body : Doc) : Prop :=
  Forall (λ d, d !! str "email" ≠ body !! str "email"
               ∧ d !! str "phoneNo" ≠ body !! str "phoneNo") db.

(** The known fields of a registration. *)
Definition known_fields : list jsstring :=
  [str "firstName"; str "lastName"; str "email"; str "phoneNo";
   str "createPassword"; str "confirmPassword"].

End Statements.

(** A library to run the definitions on: booleans for the other JSON
    values, an address check that asks for an [@], and a hash that writes
    a marker and the salt before the password. *)
Definition demo : Library := {|
  other := bool;
  isEmail := λ s, Chars.one_of s 64%N;
  isEmail_empty := eq_refl;
  hash := λ salt raw, str "$h$" ++ salt ++ str "$" ++ raw
|}.

Definition body_of `{Library} (kvs : list (string * string)) : Doc :=
  list_to_map ((λ kv, (str kv.1, JStr (str kv.2))) <$> kvs).

Definition env0 : Env := {|
  findOne_throws := None; findOne_plan := 0;
  save_throws := None; find_throws := None;
  new_id := str "id1"; now := str "2024-01-01T00:00:00.000Z"; salt := str "s1"
|}.

Definition jo `{Library} : Doc := body_of [
  ("firstName", "Jo"); ("lastName", "Doe"); ("email", "jo@x.com");
  ("phoneNo", "1234567890"); ("createPassword", "Abc123!@");
  ("confirmPassword", "Abc123!@")]%string.

(** A second and a third body: [al] shares nothing with [jo]; [cy] has
    the email of [al] and the phone number of [jo]. *)
Definition al `{Library} : Doc := body_of [
  ("firstName", "Al"); ("lastName", "Roe"); ("email", "al@y.org");
  ("phoneNo", "0987654321"); ("createPassword", "Xyz789$&");
  ("confirmPassword", "Xyz789$&")]%string.

Definition cy `{Library} : Doc := body_of [
  ("firstName", "Cy"); ("lastName", "Poe"); ("email", "al@y.org");
  ("phoneNo", "1234567890"); ("createPassword", "Qrs456!?");
  ("confirmPassword", "Qrs456!?")]%string.

Definition env1 : Env := {|
  findOne_throws := None; findOne_plan := 0;
  save_throws := None; find_throws := None;
  new_id := str "id2"; now := str "2024-01-02T00:00:00.000Z"; salt := str "s2"
|}.

(** The store after [jo] registered, and after [al] did too. *)
Definition db_jo `{Library} : list Doc := snd (post_register env0 [] jo).
Definition db_jo_al `{Library} : list Doc := snd (post_register env1 db_jo al).

(** A request during which the store refuses the write on its unique
    index on [email], and one during which the store is not reachable. *)
Definition duplicate_key : JsError := {|
  e_name := str "MongoServerError"; e_code := Some 11000%Z;
  e_keyPattern := Some (str "email", []); e_errors := None |}.

Definition unreachable : JsError := {|
  e_name := str "MongoNetworkError"; e_code := None;
  e_keyPattern := None; e_errors := None |}.

Definition env_race : Env := {|
  findOne_throws := None; findOne_plan := 0;
  save_throws := Some duplicate_key; find_throws := None;
  new_id := str "id3"; now := str "2024-01-03T00:00:00.000Z"; salt := str "s3"
|}.

Definition env_down : Env := {|
  findOne_throws := None; findOne_plan := 0;
  save_throws := Some unreachable; find_throws := None;
  new_id := str "id3"; now := str "2024-01-03T00:00:00.000Z"; salt := str "s3"
|}.

(** [jo] with another password, twice, and [jo] with one more field. *)
Definition jo_password `{Library} (pw : jsstring) : Doc :=
  <[str "createPassword" := JStr pw]> (<[str "confirmPassword" := JStr pw]> jo).

Definition jo_role `{Library} : Doc := <[str "role" := JStr (str "admin")]> jo.

(** A password whose only lower-case letters come after a line feed. *)
Definition two_lines : jsstring := str "A1@" ++ [10%N] ++ str "bcd".


(** ** Vocabulary of the further properties *)

Section MoreStatements.
Context `{Library}.

(** What the rules of a name and of the phone number accept, said on
    the characters of the string. *)
Definition name_accepts (s : jsstring) : bool :=
  (2 <=? length s) && (length s <=? 50) && forallb Chars.letter_or_space s.

Definition phoneNo_accepts (s : jsstring) : bool :=
  (length s =? 10) && forallb Chars.digit s.

(** A field of a body that holds a string [ok] accepts. *)
Definition string_field (body : Doc) (k : jsstring) (ok : jsstring → bool) : Prop :=
  ∃ s, body !! k = Some (JStr s) ∧ ok s = true.

(** The bodies the schema lets through, field by field. *)
Definition accepted (body : Doc) : Prop :=
  string_field body (str "firstName") name_accepts
  ∧ string_field body (str "lastName") name_accepts
  ∧ string_field body (str "email") isEmail
  ∧ string_field body (str "phoneNo") phoneNo_accepts
  ∧ string_field body (str "createPassword") createPassword_accepts
  ∧ body !! str "confirmPassword" = body !! str "createPassword".

(** A character of class [X] on the first line of [s]: no line
    terminator comes before it. *)
Definition on_first_line (X : N → bool) (s : jsstring) : Prop :=
  ∃ pre c post, s = pre ++ c :: post ∧ forallb Chars.dot pre = true ∧ X c = true.

(** Two bodies with the same six known fields. *)
Definition same_known (body body' : Doc) : Prop :=
  Forall (λ k, body !! k = body' !! k) known_fields.

(** No two stored records have the same value under [k]. *)
Definition unique_on (k : jsstring) (db : list Doc) : Prop :=
  NoDup ((λ d : Doc, d !! k) <$> db).

(** A stored record whose names, email and phone number are strings
    the schema accepts. *)
Definition valid_record (d : Doc) : Prop :=
  string_field d (str "firstName") name_accepts
  ∧ string_field d (str "lastName") name_accepts
  ∧ string_field d (str "email") isEmail
  ∧ string_field d (str "phoneNo") phoneNo_accepts.

(** The keys of a stored record. *)
Definition stored_keys : list jsstring :=
  [str "_id"; str "firstName"; str "lastName"; str "email"; str "phoneNo";
   str "password"; str "createdAt"; str "updatedAt"].

(** The shape of a response body: which of [errors] and [data] it has. *)
Definition well_shaped (r : Response) : Prop :=
  (status r = 201%Z ∧ success r = true ∧ errors r = None
   ∧ ∃ d, data r = Some (One d))
  ∨ ((status r = 400%Z ∨ status r = 500%Z) ∧ success r = false
     ∧ data r = None ∧ ∃ errs, errors r = Some errs).

End MoreStatements.

(** A request during which the store refuses the record by its own
    validation, one during which the lookup fails, and one during which
    the store reports a duplicate key without its key pattern. *)
Definition store_validation : JsError := {|
  e_name := str "ValidationError"; e_code := None; e_keyPattern := None;
  e_errors := Some [(str "email", str "Please enter a valid email");
                    (str "phoneNo", str "Phone number must be 10 digits")] |}.

Definition env_rejects : Env := {|
  findOne_throws := None; findOne_plan := 0;
  save_throws := Some store_validation; find_throws := None;
  new_id := str "id3"; now := str "2024-01-03T00:00:00.000Z"; salt := str "s3"
|}.

Definition env_lookup_down : Env := {|
  findOne_throws := Some unreachable; findOne_plan := 0;
  save_throws := None; find_throws := None;
  new_id := str "id3"; now := str "2024-01-03T00:00:00.000Z"; salt := str "s3"
|}.

Definition bare_duplicate_key : JsError := {|
  e_name := str "MongoError"; e_code := Some 11000%Z;
  e_keyPattern := None; e_errors := None |}.

Definition env_bare_race : Env := {|
  findOne_throws := None; findOne_plan := 0;
  save_throws := Some bare_duplicate_key; find_throws := None;
  new_id := str "id3"; now := str "2024-01-03T00:00:00.000Z"; salt := str "s3"
|}.

(** [al] with the phone number of [jo]. *)
Definition al_phone_of_jo `{Library} : Doc :=
  <[str "phoneNo" := JStr (str "1234567890")]> al.
(** * Properties *)

(** ** The matcher and the three patterns *)

Section RegexFacts.

Implicit Types (r : regex) (p X : N → bool) (s : jsstring) (i : nat).

Lemma matches_bol r i s :
  matches_at (Bol +++ r) (i, s)
  = match i with O => matches_at r (O, s) | S _ => false end.
Proof.
  unfold matches_at. destruct i; simpl; [by rewrite app_nil_r | done].
Qed.

Lemma existsb_none {A} (f : A → bool) (l : list A) :
  (∀ x, x ∈ l → f x = false) → existsb f l = false.
Proof.
  induction l as [|a l IH]; intros Hf; simpl; [done|].
  rewrite Hf by left. rewrite IH; [done|].
  intros x Hx. apply Hf. by right.
Qed.

(** A pattern that starts with [^] can only match at index 0. *)
Lemma test_bol r s : test (Bol +++ r) s = matches_at r (O, s).
Proof.
  unfold test. cbn [seq existsb]. rewrite matches_bol, drop_0.
  rewrite existsb_none; [by rewrite orb_false_r|].
  intros i Hi. apply elem_of_seq in Hi. rewrite matches_bol.
  destruct i; [lia | done].
Qed.

Lemma matches_ahead r1 r2 (st : nat * jsstring) :
  matches_at (Ahead r1 +++ r2) st = matches_at r1 st && matches_at r2 st.
Proof.
  unfold matches_at. simpl. destruct (ends r1 st); simpl; [done|].
  by rewrite app_nil_r.
Qed.

Lemma matches_cls p i s :
  matches_at (Cls p) (i, s) = match s with c :: _ => p c | [] => false end.
Proof. unfold matches_at. destruct s as [|c s]; simpl; [done|]. by destruct (p c). Qed.

Lemma matches_star_cls p X i s :
  matches_at (Star p +++ Cls X) (i, s) = reach p X s.
Proof.
  unfold matches_at. revert i. induction s as [|c s IH]; intros i; [done|].
  cbn [ends fst snd star_ends reach]. rewrite bind_cons. cbn [fst snd cls_ends].
  destruct (X c); [done|]. cbn [app orb].
  destruct (p c); [|done]. apply (IH (S i)).
Qed.

Lemma matches_star_eol p i s :
  matches_at (Star p +++ Eol) (i, s) = forallb p s.
Proof.
  unfold matches_at. revert i. induction s as [|c s IH]; intros i; [done|].
  cbn [ends fst snd star_ends forallb]. rewrite bind_cons. cbn [ends fst snd app].
  destruct (p c); [|done]. apply (IH (S i)).
Qed.

Lemma matches_plus_eol p i s :
  matches_at (Plus p +++ Eol) (i, s)
  = match s with [] => false | _ :: _ => forallb p s end.
Proof.
  destruct s as [|c s]; [done|].
  cbn [forallb]. rewrite <- (matches_star_eol p (S i) s).
  unfold matches_at. cbn [ends fst snd cls_ends].
  destruct (p c); [|done]. by rewrite bind_singleton.
Qed.

Lemma matches_rep_eol p n i s :
  matches_at (Rep n p +++ Eol) (i, s)
  = bool_decide (length s = n) && forallb p s.
Proof.
  unfold matches_at. cbn [ends fst snd]. revert i s.
  induction n as [|n IH]; intros i s.
  - destruct s; [done|]. cbn [rep_ends]. by rewrite bind_singleton.
  - destruct s as [|c s]; [done|]. cbn [rep_ends forallb length].
    destruct (p c).
    + rewrite IH. cbn [andb]. f_equal. apply bool_decide_ext. lia.
    + by rewrite andb_false_r.
Qed.

(** [/^[a-zA-Z\s]+$/]: one character at least, letters and white space
    only. *)
Lemma name_pattern_spec s :
  test name_pattern s = true ↔ s ≠ [] ∧ forallb Chars.letter_or_space s = true.
Proof.
  unfold name_pattern. rewrite test_bol, matches_plus_eol.
  destruct s as [|c s]; [split; [done | by intros [? _]] | split; [done | by intros [_ ?]]].
Qed.

(** [/^[0-9]{10}$/]: ten characters, digits only. *)
Lemma phone_pattern_spec s :
  test phone_pattern s = true ↔ length s = 10%nat ∧ forallb Chars.digit s = true.
Proof.
  unfold phone_pattern. rewrite test_bol, matches_rep_eol.
  rewrite andb_true_iff, bool_decide_eq_true. done.
Qed.

(** The password pattern: the four lookaheads each look for their
    class with no line terminator before it, and the class at the end
    reads the first character only. *)
Lemma password_pattern_spec s :
  test password_pattern s
  = reach Chars.dot Chars.lower s
    && reach Chars.dot Chars.upper s
    && reach Chars.dot Chars.digit s
    && reach Chars.dot Chars.special s
    && match s with c :: _ => Chars.password_char c | [] => false end.
Proof.
  unfold password_pattern. rewrite test_bol.
  rewrite !matches_ahead, !matches_star_cls, matches_cls.
  by rewrite !andb_assoc.
Qed.

Lemma reach_existsb p X s : reach p X s = true → existsb X s = true.
Proof.
  induction s as [|c s IH]; [done|]. simpl.
  destruct (X c); [done|]. simpl. destruct (p c); [|done]. exact IH.
Qed.

Lemma existsb_reach p X s :
  forallb p s = true → existsb X s = true → reach p X s = true.
Proof.
  induction s as [|c s IH]; [done|]. simpl.
  destruct (X c); [done|]. simpl. destruct (p c); [|done]. exact IH.
Qed.

End RegexFacts.

(** ** Lists *)

Section ListFacts.
Context {A B : Type}.

Lemma filter_all (P : A → Prop) `{∀ x, Decision (P x)} (l : list A) :
  (∀ x, x ∈ l → P x) → filter P l = l.
Proof.
  induction l as [|a l IH]; intros Hl; [done|].
  rewrite filter_cons_True by (apply Hl; left).
  f_equal. apply IH. intros x Hx. apply Hl. by right.
Qed.

Lemma filter_none (P : A → Prop) `{∀ x, Decision (P x)} (l : list A) :
  (∀ x, x ∈ l → ¬ P x) → filter P l = [].
Proof.
  induction l as [|a l IH]; intros Hl; [done|].
  rewrite filter_cons_False by (apply Hl; left).
  apply IH. intros x Hx. apply Hl. by right.
Qed.

Lemma filter_fmap (g : A → B) (P : B → Prop) `{∀ y, Decision (P y)} (l : list A) :
  filter P (g <$> l) = g <$> filter (λ x, P (g x)) l.
Proof.
  induction l as [|a l IH]; [done|]. rewrite fmap_cons, !filter_cons, IH.
  by destruct (decide (P (g a))).
Qed.

Lemma filter_nonempty (P : A → Prop) `{∀ x, Decision (P x)} (l : list A) :
  filter P l ≠ [] ↔ ∃ x, x ∈ l ∧ P x.
Proof.
  split.
  - intros Hl. destruct (filter P l) as [|x l'] eqn:E; [done|].
    exists x. apply and_comm, (list_elem_of_filter P). rewrite E. left.
  - intros (x & Hx & HP) E.
    assert (x ∈ filter P l) as Hin by by apply list_elem_of_filter.
    rewrite E in Hin. by apply elem_of_nil in Hin.
Qed.

End ListFacts.

(** ** The validator *)

Section ValidationFacts.
Context `{Library}.

Import Joi.

Implicit Types (body : Doc) (f k : jsstring) (sch : StringSchema).

Lemma validate_details body :
  error (validate registrationSchema body prefs)
  = match details body with [] => None | d :: ds => Some (d :: ds) end.
Proof.
  unfold validate, prefs. cbn [abortEarly stripUnknown error].
  by rewrite app_nil_r.
Qed.

Lemma validateRegistration_eq body :
  validateRegistration body
  = match details body with
    | [] => Next body
    | _ :: _ => Respond (validation_failure (reported body))
    end.
Proof.
  pose proof (validate_details body) as He. unfold prefs in He.
  unfold validateRegistration. rewrite He. unfold reported.
  by destruct (details body).
Qed.

Lemma post_register_valid (env : Env) (db : list Doc) body :
  details body = [] → post_register env db body = registerHandler env db body.
Proof. intros Hd. unfold post_register. by rewrite validateRegistration_eq, Hd. Qed.

Lemma post_register_invalid (env : Env) (db : list Doc) body :
  details body ≠ [] →
  post_register env db body = (Responded (validation_failure (reported body)), db).
Proof.
  intros Hd. unfold post_register. rewrite validateRegistration_eq.
  by destruct (details body).
Qed.

Lemma validate_rules_key sch k s (d : Detail) :
  d ∈ validate_rules sch k s → d_key d = k.
Proof.
  unfold validate_rules. intros Hd.
  apply list_elem_of_In, in_flat_map in Hd as (r & _ & Hr).
  destruct (rule_ok r s); simpl in Hr; [done|]. by destruct Hr as [<-|[]].
Qed.

Lemma validate_base_key sch k (v : JVal) (d : Detail) :
  d ∈ validate_base sch k v → d_key d = k.
Proof.
  unfold validate_base. destruct v as [[|c s]|o].
  - destruct (allows_empty sch); [apply validate_rules_key|].
    by intros ->%list_elem_of_singleton.
  - apply validate_rules_key.
  - by intros ->%list_elem_of_singleton.
Qed.

Lemma validate_key_key body k sch (d : Detail) :
  d ∈ validate_key body k sch → d_key d = k.
Proof.
  unfold validate_key. destruct (body !! k) as [v|].
  - destruct (valid_ref sch) as [ref|]; [|apply validate_base_key].
    case_decide; [by intros ?%elem_of_nil|].
    intros [->|Hd]%elem_of_cons; [done|]. by apply validate_base_key in Hd.
  - destruct (required sch); [|by intros ?%elem_of_nil].
    by intros ->%list_elem_of_singleton.
Qed.

(** The errors of one key, picked out of the errors of a schema. *)
Lemma filter_details (schema : list (jsstring * StringSchema)) body k sch :
  NoDup schema.*1 → (k, sch) ∈ schema →
  filter (λ d, d_key d = k) (flat_map (λ ks, validate_key body ks.1 ks.2) schema)
  = validate_key body k sch.
Proof.
  assert (Hnone : ∀ (l : list (jsstring * StringSchema)), k ∉ l.*1 →
    filter (λ d, d_key d = k) (flat_map (λ ks, validate_key body ks.1 ks.2) l) = []).
  { induction l as [|[k' sch'] l IH]; [done|]. rewrite fmap_cons, not_elem_of_cons.
    intros [Hk Hl]. cbn [flat_map fst snd]. rewrite filter_app, IH, app_nil_r by done.
    apply filter_none. intros d Hd%validate_key_key. simpl in Hk. congruence. }
  induction schema as [|[k' sch'] l IH]; [by intros _ ?%elem_of_nil|].
  rewrite fmap_cons, NoDup_cons. intros [Hk' Hl] Hin. cbn [flat_map fst snd].
  rewrite filter_app. apply elem_of_cons in Hin as [[= <- <-]|Hin].
  - rewrite Hnone, app_nil_r by done. apply filter_all.
    intros d Hd. by apply validate_key_key in Hd.
  - rewrite IH by done.
    rewrite filter_none; [done|]. intros d Hd%validate_key_key Hd'.
    apply Hk'. apply list_elem_of_fmap. exists (k, sch). split; [|done].
    simpl. congruence.
Qed.

Lemma registrationSchema_NoDup : NoDup (registrationSchema.*1).
Proof. apply (bool_decide_unpack _). by vm_compute. Qed.

Lemma pairs_of_key body k sch :
  (k, sch) ∈ registrationSchema →
  pairs_of k body = as_field_error <$> validate_key body k sch.
Proof.
  intros Hk. unfold pairs_of, reported, details.
  rewrite <- (filter_details registrationSchema body k sch)
    by auto using registrationSchema_NoDup.
  apply filter_fmap.
Qed.

Lemma details_nil body k sch :
  details body = [] → (k, sch) ∈ registrationSchema → validate_key body k sch = [].
Proof.
  intros Hd Hk. rewrite <- (filter_details registrationSchema body k sch)
    by auto using registrationSchema_NoDup.
  fold (details body). by rewrite Hd.
Qed.

Lemma details_field body (d : Detail) : d ∈ details body → d_key d ∈ known_fields.
Proof.
  unfold details. intros Hd. apply list_elem_of_In, in_flat_map in Hd as ([k sch] & Hk & Hd).
  apply list_elem_of_In, validate_key_key in Hd. simpl in Hd. subst k.
  change known_fields with (registrationSchema.*1).
  apply list_elem_of_fmap. exists (d_key d, sch). by rewrite list_elem_of_In.
Qed.

(** A key with [.min(lo).max(hi).pattern(re).required()] against the
    three rules the specification gives the field. *)
Lemma key_min_max_pattern k sch lo hi re body :
  rules sch = [Min lo; Max hi; Pattern re] → valid_ref sch = None →
  required sch = true → (1 ≤ lo ≤ hi)%nat →
  let viol := filter (λ r, sr_violated r body = true)
                [required_rule k; string_rule k (length_between lo hi);
                 string_rule k (test re)] in
  (validate_key body k sch ≠ [] ↔ viol ≠ [])
  ∧ (∀ s, body !! k = Some (JStr s) → s ≠ [] →
       length (validate_key body k sch) = length viol)
  ∧ (body !! k = None ∨ body !! k = Some (JStr []) ∨ (∃ o, body !! k = Some (JOther o)) →
       length (validate_key body k sch) = 1%nat).
Proof.
  intros Hr Hv Hq Hlo viol. subst viol.
  rewrite !filter_cons, filter_nil.
  unfold validate_key, validate_base, validate_rules, allows_empty, length_between.
  rewrite Hr, Hv, Hq.
  cbn [sr_violated required_rule string_rule flat_map rule_ok rule_type existsb app].
  destruct (body !! k) as [[[|c s]|o]|] eqn:E.
  - destruct lo as [|lo]; [lia|]. cbn.
    split_and!; [done | by intros ? [= <-] | done].
  - remember (c :: s) as s' eqn:Es'.
    destruct (lo <=? length s') eqn:E1, (length s' <=? hi) eqn:E2,
             (test re s') eqn:E3; cbn;
      (split_and!; [done | by intros ? [= <-]
                   | by intros [?|[?|[? ?]]]; simplify_eq])
      || (exfalso; apply Nat.leb_gt in E1, E2; lia).
  - cbn. split_and!; [done | by intros ? [= <-] | done].
  - cbn. split_and!; [done | by intros ? [= <-] | done].
Qed.

(** A key with one rule and [.required()]. *)
Lemma key_one_rule k sch (r : Rule) body :
  rules sch = [r] → valid_ref sch = None → required sch = true →
  allows_empty sch = false → rule_ok r [] = false →
  let viol := filter (λ r', sr_violated r' body = true)
                [required_rule k; string_rule k (rule_ok r)] in
  (validate_key body k sch ≠ [] ↔ viol ≠ [])
  ∧ (∀ s, body !! k = Some (JStr s) → s ≠ [] →
       length (validate_key body k sch) = length viol)
  ∧ (body !! k = None ∨ body !! k = Some (JStr []) ∨ (∃ o, body !! k = Some (JOther o)) →
       length (validate_key body k sch) = 1%nat).
Proof.
  intros Hr Hv Hq Hne Hr0 viol. subst viol.
  rewrite !filter_cons, filter_nil.
  unfold validate_key, validate_base, validate_rules. rewrite Hne, Hr, Hv, Hq.
  cbn [sr_violated required_rule string_rule flat_map rule_type app].
  destruct (body !! k) as [[[|c s]|o]|] eqn:E.
  - rewrite Hr0. cbn. split_and!; [done | by intros ? [= <-] | done].
  - remember (c :: s) as s' eqn:Es'.
    destruct (rule_ok r s') eqn:E1; cbn;
      (split_and!; [done | by intros ? [= <-]
                   | by intros [?|[?|[? ?]]]; simplify_eq]).
  - cbn. split_and!; [done | by intros ? [= <-] | done].
  - cbn. split_and!; [done | by intros ? [= <-] | done].
Qed.

(** The key with [.valid(Joi.ref(g)).required()] and no rule. *)
Lemma key_reference k sch g body :
  rules sch = [] → valid_ref sch = Some g → required sch = true →
  let viol := filter (λ r, sr_violated r body = true)
                [required_rule k; equal_rule k g] in
  (validate_key body k sch ≠ [] ↔ viol ≠ [])
  ∧ (∀ s, body !! k = Some (JStr s) → s ≠ [] →
       length (validate_key body k sch) = length viol).
Proof.
  intros Hr Hv Hq viol. subst viol.
  rewrite !filter_cons, filter_nil.
  unfold validate_key, validate_base, validate_rules, allows_empty.
  rewrite Hr, Hv, Hq.
  cbn [sr_violated required_rule equal_rule flat_map existsb app].
  destruct (body !! k) as [v|] eqn:E; [|cbn; split; [done | by intros ? [= <-]]].
  destruct (decide (body !! g = Some v)) as [Hg|Hg].
  - rewrite (bool_decide_eq_true_2 _ Hg). cbn. split; [done|by intros].
  - rewrite (bool_decide_eq_false_2 _ Hg). cbn. split; [done|].
    by intros [|c s] [= ->] ?.
Qed.

(** The rules the specification gives each field. *)
Lemma violated_rules_fields body :
  violated_rules (str "firstName") body
  = filter (λ r, sr_violated r body = true)
      [required_rule (str "firstName");
       string_rule (str "firstName") (length_between 2 50);
       string_rule (str "firstName") (test name_pattern)]
  ∧ violated_rules (str "lastName") body
  = filter (λ r, sr_violated r body = true)
      [required_rule (str "lastName");
       string_rule (str "lastName") (length_between 2 50);
       string_rule (str "lastName") (test name_pattern)]
  ∧ violated_rules (str "email") body
  = filter (λ r, sr_violated r body = true)
      [required_rule (str "email"); string_rule (str "email") (rule_ok Email)]
  ∧ violated_rules (str "phoneNo") body
  = filter (λ r, sr_violated r body = true)
      [required_rule (str "phoneNo");
       string_rule (str "phoneNo") (rule_ok (Pattern phone_pattern))]
  ∧ violated_rules (str "createPassword") body
  = filter (λ r, sr_violated r body = true)
      [required_rule (str "createPassword");
       string_rule (str "createPassword") (length_between 6 128);
       string_rule (str "createPassword") (test password_pattern)]
  ∧ violated_rules (str "confirmPassword") body
  = filter (λ r, sr_violated r body = true)
      [required_rule (str "confirmPassword");
       equal_rule (str "confirmPassword") (str "createPassword")].
Proof. by repeat split. Qed.

Lemma in_registrationSchema_cases (P : jsstring → StringSchema → Prop) :
  P (str "firstName") firstName_schema → P (str "lastName") lastName_schema →
  P (str "email") email_schema → P (str "phoneNo") phoneNo_schema →
  P (str "createPassword") createPassword_schema →
  P (str "confirmPassword") confirmPassword_schema →
  ∀ k sch, (k, sch) ∈ registrationSchema → P k sch.
Proof.
  intros P1 P2 P3 P4 P5 P6 k sch. unfold registrationSchema.
  rewrite !elem_of_cons, elem_of_nil.
  by intros [[= -> ->]|[[= -> ->]|[[= -> ->]|[[= -> ->]|[[= -> ->]|[[= -> ->]|[]]]]]]].
Qed.

Lemma known_fields_schema f :
  f ∈ known_fields → ∃ sch, (f, sch) ∈ registrationSchema.
Proof.
  change known_fields with (registrationSchema.*1).
  intros ([k sch] & -> & Hk)%list_elem_of_fmap. by exists sch.
Qed.

(** Field by field: the errors of a key against the rules the field
    violates. *)
Lemma key_report body k sch :
  (k, sch) ∈ registrationSchema →
  (validate_key body k sch ≠ [] ↔ violated_rules k body ≠ [])
  ∧ (∀ s, body !! k = Some (JStr s) → s ≠ [] →
       length (validate_key body k sch) = length (violated_rules k body))
  ∧ (k ≠ str "confirmPassword" →
     body !! k = None ∨ body !! k = Some (JStr []) ∨ (∃ o, body !! k = Some (JOther o)) →
     length (validate_key body k sch) = 1%nat).
Proof.
  destruct (violated_rules_fields body) as (R1 & R2 & R3 & R4 & R5 & R6).
  revert k sch. apply in_registrationSchema_cases.
  - rewrite R1.
    by destruct (key_min_max_pattern (str "firstName") firstName_schema 2 50
                   name_pattern body eq_refl eq_refl eq_refl ltac:(lia))
      as (A & B & C).
  - rewrite R2.
    by destruct (key_min_max_pattern (str "lastName") lastName_schema 2 50
                   name_pattern body eq_refl eq_refl eq_refl ltac:(lia))
      as (A & B & C).
  - rewrite R3.
    by destruct (key_one_rule (str "email") email_schema Email body
                   eq_refl eq_refl eq_refl eq_refl isEmail_empty)
      as (A & B & C).
  - rewrite R4.
    by destruct (key_one_rule (str "phoneNo") phoneNo_schema
                   (Pattern phone_pattern) body
                   eq_refl eq_refl eq_refl eq_refl eq_refl)
      as (A & B & C).
  - rewrite R5.
    by destruct (key_min_max_pattern (str "createPassword") createPassword_schema
                   6 128 password_pattern body eq_refl eq_refl eq_refl ltac:(lia))
      as (A & B & C).
  - rewrite R6.
    destruct (key_reference (str "confirmPassword") confirmPassword_schema
                (str "createPassword") body eq_refl eq_refl eq_refl) as (A & B).
    split_and!; [done | done | by intros []].
Qed.

Lemma fmap_not_nil {A B} (g : A → B) (l : list A) : g <$> l ≠ [] ↔ l ≠ [].
Proof. by destruct l. Qed.

Lemma field_report f body :
  f ∈ known_fields →
  (pairs_of f body ≠ [] ↔ violated_rules f body ≠ [])
  ∧ (∀ s, body !! f = Some (JStr s) → s ≠ [] →
       length (pairs_of f body) = length (violated_rules f body))
  ∧ (f ≠ str "confirmPassword" →
     body !! f = None ∨ body !! f = Some (JStr []) ∨ (∃ o, body !! f = Some (JOther o)) →
     length (pairs_of f body) = 1%nat).
Proof.
  intros [sch Hf]%known_fields_schema.
  rewrite (pairs_of_key body f sch Hf), length_fmap, fmap_not_nil.
  by apply key_report.
Qed.

Lemma reported_not_nil body :
  reported body ≠ [] ↔ ∃ f, f ∈ known_fields ∧ pairs_of f body ≠ [].
Proof.
  split.
  - unfold reported. rewrite fmap_not_nil. intros Hd.
    destruct (details body) as [|d ds] eqn:E; [done|].
    assert (d ∈ details body) as Hin by (rewrite E; left).
    exists (d_key d). split; [by apply (details_field body)|].
    unfold pairs_of. apply filter_nonempty. exists (as_field_error d).
    split; [|done]. unfold reported. by apply list_elem_of_fmap_2.
  - intros (f & _ & Hp) E. unfold pairs_of in Hp. by rewrite E in Hp.
Qed.

Lemma spec_rules_fields (r : SpecRule) : r ∈ spec_rules → sr_field r ∈ known_fields.
Proof.
  unfold spec_rules, known_fields. rewrite !elem_of_cons, elem_of_nil.
  intros Hr. repeat (destruct Hr as [->|Hr]; [simpl; set_solver|]). done.
Qed.

Lemma violations_not_nil body :
  violations body ≠ [] ↔ ∃ f, f ∈ known_fields ∧ violated_rules f body ≠ [].
Proof.
  unfold violations, violated_rules. rewrite filter_nonempty. split.
  - intros (r & Hr & Hv). exists (sr_field r). split; [by apply spec_rules_fields|].
    apply filter_nonempty. exists r. split; [|done]. by apply list_elem_of_filter.
  - intros (f & _ & (r & Hr & Hv)%filter_nonempty). exists r. split; [|done].
    by apply list_elem_of_filter in Hr as [_ Hr].
Qed.

End ValidationFacts.

(** ** The handlers *)

Section HandlerFacts.
Context `{Library}.

Implicit Types (env : Env) (db : list Doc) (body : Doc) (k : jsstring).

Lemma validateRegistration_next body b :
  validateRegistration body = Next b ↔ details body = [] ∧ b = body.
Proof.
  rewrite validateRegistration_eq. destruct (details body) as [|d ds].
  - split; [by intros [= ->] | by intros [_ ->]].
  - split; [done | by intros [? _]].
Qed.

Lemma lookup_set_ne k k' (v : option JVal) (d : Doc) :
  k ≠ k' → User.set k v d !! k' = d !! k'.
Proof. intros Hk. destruct v; [|done]. by apply lookup_insert_ne. Qed.

Lemma lookup_set_eq k (v : option JVal) (d : Doc) :
  d !! k = None → User.set k v d !! k = v.
Proof. intros Hd. destruct v; [|done]. by apply lookup_insert_eq. Qed.

Lemma lookup_new (fn ln em ph pw : option JVal) :
  User.new fn ln em ph pw !! str "firstName" = fn
  ∧ User.new fn ln em ph pw !! str "lastName" = ln
  ∧ User.new fn ln em ph pw !! str "email" = em
  ∧ User.new fn ln em ph pw !! str "phoneNo" = ph
  ∧ User.new fn ln em ph pw !! str "password" = pw.
Proof.
  unfold User.new.
  split_and!; rewrite ?lookup_set_ne by done; apply lookup_set_eq;
    rewrite ?lookup_set_ne by done; apply lookup_empty.
Qed.

Lemma lookup_hashPassword_ne (s : jsstring) (u : Doc) k :
  k ≠ str "password" → User.hashPassword s u !! k = u !! k.
Proof.
  intros Hk. unfold User.hashPassword.
  destruct (u !! str "password") as [[raw|o]|]; [|done|done].
  by rewrite lookup_insert_ne.
Qed.

Lemma lookup_hashPassword (s raw : jsstring) (u : Doc) :
  u !! str "password" = Some (JStr raw) →
  User.hashPassword s u !! str "password" = Some (JStr (hash s raw)).
Proof. intros Hu. unfold User.hashPassword. by rewrite Hu, lookup_insert_eq. Qed.

Lemma lookup_saved_user env body k :
  k ∈ [str "firstName"; str "lastName"; str "email"; str "phoneNo"] →
  saved_user env body !! k = body !! k.
Proof.
  destruct (lookup_new (body !! str "firstName") (body !! str "lastName")
              (body !! str "email") (body !! str "phoneNo")
              (body !! str "createPassword")) as (N1 & N2 & N3 & N4 & _).
  rewrite !elem_of_cons, elem_of_nil. unfold saved_user.
  intros [->|[->|[->|[->|[]]]]];
    rewrite !lookup_insert_ne, lookup_hashPassword_ne by done; done.
Qed.

Lemma lookup_saved_password env body (raw : jsstring) :
  body !! str "createPassword" = Some (JStr raw) →
  saved_user env body !! str "password" = Some (JStr (hash (salt env) raw)).
Proof.
  intros Hb. unfold saved_user. rewrite !lookup_insert_ne by done.
  apply lookup_hashPassword. unfold new_user.
  by destruct (lookup_new (body !! str "firstName") (body !! str "lastName")
                 (body !! str "email") (body !! str "phoneNo")
                 (body !! str "createPassword")) as (_ & _ & _ & _ & ->).
Qed.

Lemma findOne_fresh env db body :
  fresh db body →
  User.findOne env db (body !! str "email") (body !! str "phoneNo") = None.
Proof.
  intros Hf. unfold User.findOne. rewrite filter_none; [done|].
  unfold fresh in Hf. rewrite Forall_forall in Hf.
  intros d [He Hp]%Hf. by intros [?|?].
Qed.

Lemma findOne_Some env db (email phoneNo : option JVal) (d : Doc) :
  User.findOne env db email phoneNo = Some d →
  d ∈ db ∧ (d !! str "email" = email ∨ d !! str "phoneNo" = phoneNo).
Proof.
  unfold User.findOne. intros Hd%list_elem_of_lookup_2.
  by apply list_elem_of_filter in Hd as [Hm Hd].
Qed.

Lemma findOne_is_Some env db (email phoneNo : option JVal) (d : Doc) :
  d ∈ db → d !! str "email" = email ∨ d !! str "phoneNo" = phoneNo →
  is_Some (User.findOne env db email phoneNo).
Proof.
  intros Hd Hm. unfold User.findOne. apply lookup_lt_is_Some.
  apply Nat.mod_upper_bound. intros Hl%length_zero_iff_nil.
  assert (d ∈ filter (λ d, d !! str "email" = email ∨ d !! str "phoneNo" = phoneNo) db)
    as Hin by by apply list_elem_of_filter.
  rewrite Hl in Hin. by apply elem_of_nil in Hin.
Qed.

Lemma validate_key_nil_string body k (sch : Joi.StringSchema) :
  Joi.valid_ref sch = None → Joi.required sch = true →
  Joi.validate_key body k sch = [] → ∃ s, body !! k = Some (JStr s).
Proof.
  intros Hv Hq. unfold Joi.validate_key. rewrite Hv, Hq.
  destruct (body !! k) as [[s|o]|]; [by exists s | done | done].
Qed.

Lemma valid_createPassword body :
  details body = [] → ∃ raw, body !! str "createPassword" = Some (JStr raw).
Proof.
  intros Hd. apply (validate_key_nil_string body _ createPassword_schema); [done..|].
  apply details_nil; [done|]. unfold registrationSchema. set_solver.
Qed.

Lemma createPassword_key body (s : jsstring) :
  body !! str "createPassword" = Some (JStr s) →
  Joi.validate_key body (str "createPassword") createPassword_schema = []
  ↔ createPassword_accepts s = true.
Proof.
  intros Hs. unfold Joi.validate_key, Joi.validate_base, Joi.validate_rules.
  unfold createPassword_accepts, length_between. rewrite Hs.
  cbn [Joi.valid_ref Joi.rules createPassword_schema Joi.allows_empty existsb
       flat_map Joi.rule_ok Joi.rule_type orb app].
  destruct s as [|c s]; [done|]. remember (c :: s) as s' eqn:Es'.
  by destruct (6 <=? length s'), (length s' <=? 128), (test password_pattern s').
Qed.

(** What the password rules accept has a character of each class and an
    allowed first character. *)
Lemma createPassword_accepts_inv (s : jsstring) :
  createPassword_accepts s = true →
  (6 ≤ length s ≤ 128)%nat
  ∧ has_four_classes s = true
  ∧ ∃ c rest, s = c :: rest ∧ Chars.password_char c = true.
Proof.
  unfold createPassword_accepts, length_between, has_four_classes.
  rewrite password_pattern_spec, !andb_true_iff.
  intros [[Hlo Hhi] [[[[Hl Hu] Hd] Hs] Hc]].
  apply Nat.leb_le in Hlo, Hhi. split; [done|].
  split; [by repeat split; eapply reach_existsb|].
  destruct s as [|c rest]; [done|]. by exists c, rest.
Qed.

Lemma createPassword_accepts_intro (s : jsstring) (c : N) (rest : jsstring) :
  s = c :: rest → (6 ≤ length s ≤ 128)%nat →
  Chars.password_char c = true →
  forallb Chars.dot s = true →
  has_four_classes s = true →
  createPassword_accepts s = true.
Proof.
  intros Hs [Hlo Hhi] Hc Hdot.
  unfold createPassword_accepts, length_between, has_four_classes.
  rewrite password_pattern_spec, !andb_true_iff.
  intros [[[Hl Hu] Hd] Hsp].
  apply Nat.leb_le in Hlo, Hhi.
  split; [done|]. split; [by repeat split; apply existsb_reach|].
  by rewrite Hs.
Qed.

(** The errors of a body depend on its six known fields only. *)
Lemma details_ext body body' :
  (∀ k, k ∈ known_fields → body !! k = body' !! k) → details body = details body'.
Proof.
  intros Hk. unfold details, registrationSchema. cbn [flat_map fst snd].
  unfold Joi.validate_key.
  cbn [Joi.valid_ref firstName_schema lastName_schema email_schema phoneNo_schema
       createPassword_schema confirmPassword_schema].
  by rewrite !Hk by (unfold known_fields; set_solver).
Qed.

Lemma details_unknown body k (v : JVal) :
  k ∉ known_fields → details (<[k := v]> body) = details body.
Proof.
  intros Hk. apply details_ext. intros k' Hk'. apply lookup_insert_ne. by intros ->.
Qed.

(** The handler, case by case. *)
Lemma registerHandler_findOne_throws env db body e :
  findOne_throws env = Some e →
  registerHandler env db body = (register_catch e, db).
Proof. intros He. unfold registerHandler, register_try. by rewrite He. Qed.

Lemma registerHandler_existing env db body (d : Doc) :
  findOne_throws env = None →
  User.findOne env db (body !! str "email") (body !! str "phoneNo") = Some d →
  registerHandler env db body
  = (Responded
       (if bool_decide (d !! str "email" = body !! str "email")
        then conflict (str "email") (Text (str "Email is already registered"))
        else conflict (str "phoneNo") (Text (str "Phone number is already registered"))),
     db).
Proof.
  intros He Hd. unfold registerHandler, register_try. rewrite He. cbn.
  rewrite Hd. cbn. by case_bool_decide.
Qed.

Lemma registerHandler_save_throws env db body e :
  findOne_throws env = None →
  User.findOne env db (body !! str "email") (body !! str "phoneNo") = None →
  save_throws env = Some e →
  registerHandler env db body = (register_catch e, db).
Proof.
  intros He Hd Hs. unfold registerHandler, register_try. rewrite He. cbn.
  rewrite Hd. unfold User.save. by rewrite Hs.
Qed.

Lemma registerHandler_saved env db body :
  findOne_throws env = None →
  User.findOne env db (body !! str "email") (body !! str "phoneNo") = None →
  save_throws env = None →
  registerHandler env db body
  = (Responded (created (delete (str "password") (saved_user env body))),
     db ++ [saved_user env body]).
Proof.
  intros He Hd Hs. unfold registerHandler, register_try. rewrite He. cbn.
  rewrite Hd. unfold User.save. by rewrite Hs.
Qed.

Lemma register_catch_status (e : JsError) (r : Response) :
  register_catch e = Responded r → status r = 400%Z ∨ status r = 500%Z.
Proof.
  unfold register_catch. repeat case_decide.
  - destruct (e_errors e); [|done]. intros [= <-]. by left.
  - destruct (e_keyPattern e) as [[??]|]; [|done]. intros [= <-]. by left.
  - intros [= <-]. by right.
Qed.

(** Only a registration that ends in 201 changes the store, and it adds
    the record of the body. *)
Lemma post_register_cases env db body out db' :
  post_register env db body = (out, db') →
  (db' = db ∧ ∀ r, out = Responded r → status r ≠ 201%Z)
  ∨ (details body = [] ∧ out = Responded (created (delete (str "password") (saved_user env body)))
     ∧ db' = db ++ [saved_user env body]).
Proof.
  destruct (details body) as [|d ds] eqn:Ed.
  - rewrite post_register_valid by done.
    destruct (findOne_throws env) as [e|] eqn:He.
    { rewrite (registerHandler_findOne_throws _ _ _ e He). intros [= <- <-].
      left. split; [done|]. intros r Hr%register_catch_status. destruct Hr as [->| ->]; done. }
    destruct (User.findOne env db (body !! str "email") (body !! str "phoneNo"))
      as [d|] eqn:Hd.
    { rewrite (registerHandler_existing _ _ _ d He Hd). intros [= <- <-].
      left. split; [done|]. intros r [= <-]. by case_bool_decide. }
    destruct (save_throws env) as [e|] eqn:Hs.
    { rewrite (registerHandler_save_throws _ _ _ e He Hd Hs). intros [= <- <-].
      left. split; [done|]. intros r Hr%register_catch_status. destruct Hr as [->| ->]; done. }
    rewrite (registerHandler_saved _ _ _ He Hd Hs). intros [= <- <-]. by right.
  - rewrite post_register_invalid by (by rewrite Ed). intros [= <- <-].
    left. split; [done|]. by intros r [= <-].
Qed.

End HandlerFacts.

(** ** The Validator: C3 and C5 *)

(** C3 (amended): a body violates a rule exactly when validation fails,
    and then the response is the validation failure and nothing is
    stored; every field is visited, so a field that violates one of its
    rules is in the list whatever the other fields do; a field that holds
    a non-empty string has all its rules evaluated and one pair for each
    rule it violates, not deduplicated; each of the first five fields,
    when it is missing, empty or not a string, has exactly one pair. *)
Theorem C3_validator_reports `{Library} (env : Env) (db : list Doc) (body : Doc) :
  (violations body ≠ [] ↔ reported body ≠ [])
  ∧ (reported body ≠ [] →
     post_register env db body
     = (Responded (validation_failure (reported body)), db))
  ∧ (∀ f, f ∈ known_fields →
       (violated_rules f body ≠ [] ↔ pairs_of f body ≠ []))
  ∧ (∀ f s, f ∈ known_fields → body !! f = Some (JStr s) → s ≠ [] →
       length (pairs_of f body) = length (violated_rules f body))
  ∧ (∀ f, f ∈ known_fields → f ≠ str "confirmPassword" →
       body !! f = None ∨ body !! f = Some (JStr [])
       ∨ (∃ o, body !! f = Some (JOther o)) →
       length (pairs_of f body) = 1%nat).
Proof.
  split_and!.
  - rewrite violations_not_nil, reported_not_nil.
    split; intros (f & Hf & Hv); exists f; (split; [done|]);
      by apply (field_report f body Hf).
  - intros Hr. apply post_register_invalid. intros Hd.
    apply Hr. unfold reported. by rewrite Hd.
  - intros f Hf. by destruct (field_report f body Hf) as (-> & _ & _).
  - intros f s Hf. by apply (field_report f body Hf).
  - intros f Hf. by apply (field_report f body Hf).
Qed.

Lemma violated_confirmPassword `{Library} (body : Doc) :
  body !! str "confirmPassword" ≠ body !! str "createPassword" →
  violated_rules (str "confirmPassword") body ≠ [].
Proof.
  intros Hne. destruct (violated_rules_fields body) as (_ & _ & _ & _ & _ & ->).
  rewrite !filter_cons, filter_nil. cbn [sr_violated required_rule equal_rule].
  destruct (body !! str "confirmPassword") as [v|] eqn:E; [|done].
  rewrite (bool_decide_eq_false_2 (body !! str "createPassword" = Some v)) by done.
  done.
Qed.

(** C5: a body whose [confirmPassword] is not equal to its
    [createPassword] (one of them missing included) gets the validation
    failure, with a pair for the field [confirmPassword] in it, and the
    store is left as it was. *)
Theorem C5_confirmPassword_mismatch `{Library} (env : Env) (db : list Doc) (body : Doc) :
  body !! str "confirmPassword" ≠ body !! str "createPassword" →
  ∃ errs,
    post_register env db body = (Responded (validation_failure errs), db)
    ∧ ∃ e, e ∈ errs ∧ field e = str "confirmPassword".
Proof.
  intros Hne%violated_confirmPassword.
  assert (str "confirmPassword" ∈ known_fields) as Hf by set_solver.
  apply (field_report _ body Hf) in Hne.
  exists (reported body). split.
  - apply post_register_invalid. intros Hd. unfold pairs_of, reported in Hne.
    by rewrite Hd in Hne.
  - destruct (pairs_of (str "confirmPassword") body) as [|e es] eqn:E; [done|].
    exists e. apply and_comm, (list_elem_of_filter (λ e, field e = str "confirmPassword")).
    fold (pairs_of (str "confirmPassword") body). rewrite E. left.
Qed.

(** ** Registration: C1, C2, C4 and C7 *)

(** C1: a body that passes validation and whose email and phone number
    no stored record has is answered, when the store answers, with 201,
    [success: true] and, as [data], the record that was added to the
    store with its password field left out; the four fields of the
    record that come from the body are those of the body. *)
Theorem C1_register_success `{Library} (env : Env) (db : list Doc) (body : Doc) :
  validateRegistration body = Next body →
  fresh db body →
  findOne_throws env = None → save_throws env = None →
  ∃ saved,
    post_register env db body
    = (Responded {| status := 201; success := true;
                    r_message := Text (str "User registered successfully");
                    errors := None;
                    data := Some (One (delete (str "password") saved)) |},
       db ++ [saved])
    ∧ delete (str "password") saved !! str "password" = None
    ∧ ∀ k, k ∈ [str "firstName"; str "lastName"; str "email"; str "phoneNo"] →
           delete (str "password") saved !! k = body !! k.
Proof.
  intros [Hd _]%validateRegistration_next Hf He Hs.
  exists (saved_user env body). split_and!.
  - rewrite post_register_valid by done.
    by rewrite (registerHandler_saved env db body He (findOne_fresh env db body Hf) Hs).
  - apply lookup_delete_eq.
  - intros k Hk. rewrite lookup_delete_ne; [by apply lookup_saved_user|].
    intros <-. revert Hk. rewrite !elem_of_cons, elem_of_nil.
    by intros [?|[?|[?|[?|[]]]]].
Qed.

(** C2: whatever a registration answers, it keeps every stored password
    a hash; one that answers 201 has stored, as the password of the new
    record, the hash of the submitted [createPassword] under the salt of
    the record, which is not the submitted password; listing leaves the
    store as it is. The hash is the one of the library, taken to differ
    from what it hashes. *)
Theorem C2_passwords_hashed `{Library} (env : Env) (db : list Doc) (body : Doc)
    (out : Outcome) (db' : list Doc) :
  (∀ s raw, hash s raw ≠ raw) →
  post_register env db body = (out, db') →
  (Forall hashed db → Forall hashed db')
  ∧ (∀ r, out = Responded r → status r = 201%Z →
       ∃ raw saved,
         body !! str "createPassword" = Some (JStr raw)
         ∧ db' = db ++ [saved]
         ∧ saved !! str "password" = Some (JStr (hash (salt env) raw))
         ∧ saved !! str "password" ≠ Some (JStr raw))
  ∧ snd (get_users env db) = db.
Proof.
  intros Hh [[-> Hout]|(Hd & -> & ->)]%post_register_cases.
  - split_and!; [done | intros r Hr Hs; by destruct (Hout r Hr) | ].
    unfold get_users. by destruct (User.find_select_minus _ _ _).
  - destruct (valid_createPassword body Hd) as [raw Hraw].
    pose proof (lookup_saved_password env body raw Hraw) as Hp.
    split_and!.
    + intros Hdb. apply Forall_app. split; [done|].
      apply Forall_singleton. by exists (salt env), raw.
    + intros r _ _. exists raw, (saved_user env body).
      split_and!; [done..|]. rewrite Hp. intros [= Heq]. by apply Hh in Heq.
    + unfold get_users. by destruct (User.find_select_minus _ _ _).
Qed.

(** C4 (amended): a valid body whose email is the email of a stored
    record, when no stored record has its phone number without having
    its email too, is answered with the conflict on the field [email],
    and nothing is stored; a stored record that has both the email and
    the phone number of the body is such a record, so the email takes
    precedence. *)
Theorem C4_conflict_on_email `{Library} (env : Env) (db : list Doc) (body : Doc) :
  validateRegistration body = Next body →
  findOne_throws env = None →
  (∃ d, d ∈ db ∧ d !! str "email" = body !! str "email") →
  (∀ d, d ∈ db → d !! str "phoneNo" = body !! str "phoneNo" →
        d !! str "email" = body !! str "email") →
  post_register env db body
  = (Responded {| status := 400; success := false;
                  r_message := Text (str "User already exists");
                  errors := Some [{| field := str "email";
                                     message := Text (str "Email is already registered") |}];
                  data := None |},
     db).
Proof.
  intros [Hd _]%validateRegistration_next He (d & Hin & Hm) Hphone.
  rewrite post_register_valid by done.
  destruct (findOne_is_Some env db (body !! str "email") (body !! str "phoneNo") d Hin)
    as [d' Hd']; [by left|].
  rewrite (registerHandler_existing env db body d' He Hd').
  apply findOne_Some in Hd' as [Hin' Hm'].
  rewrite bool_decide_eq_true_2; [done|]. destruct Hm' as [?|?]; auto.
Qed.

(** C7: when [save] throws, nothing is stored and the answer depends on
    the error alone. A duplicate-key error of the store (code 11000, with
    its key pattern) is answered with the conflict, 400, on the first key
    of the pattern; an error that is neither that nor a validation error
    of the store is answered with 500 and the generic message; and 500 is
    the answer to no other error. *)
Theorem C7_save_failure `{Library} (env : Env) (db : list Doc) (body : Doc) (e : JsError) :
  validateRegistration body = Next body →
  fresh db body →
  findOne_throws env = None →
  save_throws env = Some e →
  (∀ f ks, e_name e ≠ str "ValidationError" → e_code e = Some 11000%Z →
           e_keyPattern e = Some (f, ks) →
     post_register env db body
     = (Responded {| status := 400; success := false;
                     r_message := Text (str "User already exists");
                     errors := Some [{| field := f;
                                        message := Text (f ++ str " is already registered") |}];
                     data := None |},
        db))
  ∧ (e_name e ≠ str "ValidationError" → e_code e ≠ Some 11000%Z →
     post_register env db body
     = (Responded {| status := 500; success := false;
                     r_message := Text (str "Internal server error");
                     errors := Some [{| field := str "server";
                                        message := Text (str "Something went wrong. Please try again later.") |}];
                     data := None |},
        db))
  ∧ (∀ r, post_register env db body = (Responded r, db) → status r = 500%Z →
       e_name e ≠ str "ValidationError" ∧ e_code e ≠ Some 11000%Z
       ∧ r = server_error).
Proof.
  intros [Hd _]%validateRegistration_next Hf He Hs.
  rewrite post_register_valid by done.
  rewrite (registerHandler_save_throws env db body e He (findOne_fresh env db body Hf) Hs).
  unfold register_catch. split_and!.
  - intros f ks Hn Hc Hk. by rewrite decide_False, decide_True, Hk.
  - intros Hn Hc. by rewrite !decide_False.
  - intros r. repeat case_decide.
    + destruct (e_errors e); [|done]. by intros [= <-].
    + destruct (e_keyPattern e) as [[??]|]; [|done]. by intros [= <-].
    + by intros [= <-].
Qed.

(** ** Listing: C8 *)

(** C8: for every store, listing changes nothing in it, and no record
    of the [data] of its response has a [password] field; when the store
    answers, the response is 200 with one record for each stored record,
    in the order of the store, equal to it on every other field. *)
Theorem C8_listing_omits_password `{Library} (env : Env) (db : list Doc) :
  snd (get_users env db) = db
  ∧ (∀ ds, data (fst (get_users env db)) = Some (Many ds) →
       Forall (λ d, d !! str "password" = None) ds)
  ∧ (find_throws env = None →
     ∃ ds,
       get_users env db
       = ({| status := 200; success := true;
             r_message := Text (str "Users retrieved successfully");
             errors := None; data := Some (Many ds) |}, db)
       ∧ length ds = length db
       ∧ ∀ i d, db !! i = Some d →
           ∃ d', ds !! i = Some d' ∧ d' !! str "password" = None
                 ∧ ∀ k, k ≠ str "password" → d' !! k = d !! k).
Proof.
  unfold get_users, User.find_select_minus.
  destruct (find_throws env) as [e|]; cbn; split_and!; try done.
  - intros ds [= <-]. apply Forall_fmap, Forall_forall. intros d _.
    apply lookup_delete_eq.
  - intros _. exists (delete (str "password") <$> db). split_and!; [done| |].
    + apply length_fmap.
    + intros i d Hi. exists (delete (str "password") d). split_and!.
      * by rewrite list_lookup_fmap, Hi.
      * apply lookup_delete_eq.
      * intros k Hk. by apply lookup_delete_ne.
Qed.

(** ** The password pattern: C10 *)

(** C10: the class at the end of the pattern reads one character, the
    first. What the rules of [createPassword] accept starts with a
    character of [[A-Za-z0-9@$!%*?&]] and has a lower-case letter, an
    upper-case letter, a digit and a special character; and a string of
    6 to 128 characters on one line that starts so and has the four is
    accepted whatever its other characters are: [Abc123!@#], with its
    [#], and [Abc 123!@], with its space, are accepted and give no error
    on the key. *)
Theorem C10_pattern_reads_first_character `{Library} :
  (∀ s, createPassword_accepts s = true →
     has_four_classes s = true
     ∧ ∃ c rest, s = c :: rest ∧ Chars.password_char c = true)
  ∧ (∀ body s c rest,
       body !! str "createPassword" = Some (JStr s) →
       s = c :: rest → (6 ≤ length s ≤ 128)%nat →
       Chars.password_char c = true →
       forallb Chars.dot s = true →
       has_four_classes s = true →
       Joi.validate_key body (str "createPassword") createPassword_schema = [])
  ∧ (createPassword_accepts (str "Abc123!@#") = true
     ∧ forallb Chars.password_char (str "Abc123!@#") = false)
  ∧ (createPassword_accepts (str "Abc 123!@") = true
     ∧ forallb Chars.password_char (str "Abc 123!@") = false).
Proof.
  split_and!; try reflexivity.
  - intros s Hs. by apply createPassword_accepts_inv in Hs as (_ & ? & ?).
  - intros body s c rest Hb Hs Hlen Hc Hdot H4.
    apply (createPassword_key body s Hb).
    by apply (createPassword_accepts_intro s c rest).
Qed.


(** * Scenarios

    The definitions run on the library [demo]: the examples, the
    counterexamples and the instances of the theorems. *)

Section Scenarios.
#[local] Existing Instance demo.

(** The violations of a body whose first name is the empty string and
    whose other fields are those of [jo]. *)
Lemma empty_firstName_violations :
  violations (<[str "firstName" := JStr []]> jo)
  = [string_rule (str "firstName") (length_between 2 50);
     string_rule (str "firstName") (test name_pattern)].
Proof. reflexivity. Qed.

(** C3, as stated, fails: one pair per violated rule. The empty first
    name violates two rules of the field (its length is not in 2..50 and
    it does not match the pattern) and the response carries one pair for
    it, [string.empty]: the base type check of Joi ends the validation
    of a key, whatever [abortEarly] is. *)
Lemma C3_counterexample :
  length (violations (<[str "firstName" := JStr []]> jo)) = 2%nat
  ∧ reported (<[str "firstName" := JStr []]> jo)
    = [{| field := str "firstName";
          message := JoiDefault (str "firstName") string_empty |}]
  ∧ fst (post_register env0 [] (<[str "firstName" := JStr []]> jo))
    = Responded (validation_failure
        [{| field := str "firstName";
            message := JoiDefault (str "firstName") string_empty |}]).
Proof. repeat split; vm_compute; reflexivity. Qed.

Lemma C3_validator_reports_witness :
  length (pairs_of (str "firstName") (<[str "firstName" := JStr (str "1")]> jo))
  = length (violated_rules (str "firstName") (<[str "firstName" := JStr (str "1")]> jo))
  ∧ post_register env0 [] (<[str "firstName" := JStr (str "1")]> jo)
    = (Responded (validation_failure
                    (reported (<[str "firstName" := JStr (str "1")]> jo))), []).
Proof.
  destruct (C3_validator_reports env0 []
              (<[str "firstName" := JStr (str "1")]> jo)) as (_ & B & _ & D & _).
  split.
  - apply (D (str "firstName") (str "1")); [by left | reflexivity | done].
  - apply B. vm_compute. discriminate.
Defined.

(** The example of the specification: [jo] registers in the empty store. *)
Example jo_registers :
  ∃ d, post_register env0 [] jo = (Responded (created d), db_jo)
       ∧ d !! str "email" = Some (JStr (str "jo@x.com"))
       ∧ d !! str "password" = None.
Proof. eexists. repeat split; vm_compute; reflexivity. Qed.

Lemma C1_register_success_witness :
  ∃ saved,
    post_register env1 db_jo al
    = (Responded (created (delete (str "password") saved)), db_jo ++ [saved])
    ∧ delete (str "password") saved !! str "password" = None
    ∧ ∀ k, k ∈ [str "firstName"; str "lastName"; str "email"; str "phoneNo"] →
           delete (str "password") saved !! k = al !! k.
Proof.
  apply (C1_register_success env1 db_jo al).
  - by vm_compute.
  - unfold fresh. apply (bool_decide_unpack _). by vm_compute.
  - reflexivity.
  - reflexivity.
Defined.

Lemma demo_hash_differs (s raw : jsstring) : hash s raw ≠ raw.
Proof.
  intros Heq. apply (f_equal length) in Heq. simpl in Heq.
  rewrite !length_app in Heq. simpl in Heq. lia.
Qed.

Lemma C2_passwords_hashed_witness :
  ∃ raw saved,
    al !! str "createPassword" = Some (JStr raw)
    ∧ db_jo_al = db_jo ++ [saved]
    ∧ saved !! str "password" = Some (JStr (hash (str "s2") raw))
    ∧ saved !! str "password" ≠ Some (JStr raw).
Proof.
  destruct (C2_passwords_hashed env1 db_jo al
              (Responded (created (delete (str "password") (saved_user env1 al))))
              db_jo_al demo_hash_differs) as (_ & Hnew & _).
  - vm_compute. reflexivity.
  - apply (Hnew _ eq_refl eq_refl).
Defined.

(** C4, as stated, fails: [cy] has the email of the stored record of
    [al], and the conflict is on [phoneNo]. The lookup returns one stored
    record that has the email or the phone number, in the natural order
    the record of [jo], which has the phone number of [cy] and another
    email. *)
Lemma C4_counterexample :
  validateRegistration cy = Next cy
  ∧ (λ d : Doc, d !! str "email") <$> db_jo_al
    = [jo !! str "email"; cy !! str "email"]
  ∧ post_register env1 db_jo_al cy
    = (Responded (conflict (str "phoneNo")
                    (Text (str "Phone number is already registered"))),
       db_jo_al).
Proof. repeat split; vm_compute; reflexivity. Qed.

Lemma C4_conflict_on_email_witness :
  post_register env1 db_jo (<[str "phoneNo" := JStr (str "5555555555")]> jo)
  = (Responded (conflict (str "email") (Text (str "Email is already registered"))),
     db_jo).
Proof.
  apply (C4_conflict_on_email env1 db_jo
           (<[str "phoneNo" := JStr (str "5555555555")]> jo)).
  - by vm_compute.
  - reflexivity.
  - exists (saved_user env0 jo). split; [by left | by vm_compute].
  - intros d [->|[]%elem_of_nil]%elem_of_cons _. by vm_compute.
Defined.

Lemma C5_confirmPassword_mismatch_witness :
  ∃ errs,
    post_register env0 db_jo (<[str "confirmPassword" := JStr (str "Abc123!#")]> al)
    = (Responded (validation_failure errs), db_jo)
    ∧ ∃ e, e ∈ errs ∧ field e = str "confirmPassword".
Proof.
  apply (C5_confirmPassword_mismatch env0 db_jo
           (<[str "confirmPassword" := JStr (str "Abc123!#")]> al)).
  by vm_compute.
Defined.

Lemma C7_save_failure_witness :
  post_register env_race db_jo al
  = (Responded (conflict (str "email") (Text (str "email is already registered"))),
     db_jo)
  ∧ post_register env_down db_jo al = (Responded server_error, db_jo).
Proof.
  split.
  - destruct (C7_save_failure env_race db_jo al duplicate_key) as (Hdup & _ & _);
      [by vm_compute | unfold fresh; apply (bool_decide_unpack _); by vm_compute
      | reflexivity | reflexivity | ].
    apply (Hdup (str "email") []); [by vm_compute | reflexivity | reflexivity].
  - destruct (C7_save_failure env_down db_jo al unreachable) as (_ & Hother & _);
      [by vm_compute | unfold fresh; apply (bool_decide_unpack _); by vm_compute
      | reflexivity | reflexivity | ].
    apply Hother; by vm_compute.
Defined.

Lemma C8_listing_omits_password_witness :
  ∃ ds,
    get_users env0 db_jo_al = (listing ds, db_jo_al)
    ∧ length ds = length db_jo_al
    ∧ ∀ i d, db_jo_al !! i = Some d →
        ∃ d', ds !! i = Some d' ∧ d' !! str "password" = None
              ∧ ∀ k, k ≠ str "password" → d' !! k = d !! k.
Proof.
  destruct (C8_listing_omits_password env0 db_jo_al) as (_ & _ & Hl).
  apply Hl. reflexivity.
Defined.

Lemma C10_pattern_reads_first_character_witness :
  Joi.validate_key (jo_password (str "Abc123!@#")) (str "createPassword")
    createPassword_schema = []
  ∧ validateRegistration (jo_password (str "Abc123!@#"))
    = Next (jo_password (str "Abc123!@#")).
Proof.
  split; [|vm_compute; reflexivity].
  destruct C10_pattern_reads_first_character as (_ & Hpass & _).
  apply (Hpass (jo_password (str "Abc123!@#")) (str "Abc123!@#") 65%N (str "bc123!@#"));
    [reflexivity | reflexivity | vm_compute; lia | reflexivity..].
Defined.

(** C6, on the code: [#Abc1@] has six characters, a lower-case letter,
    an upper-case letter, a digit and a special character, and the
    password rules refuse it, with the message that says it must contain
    them; the pattern ends in a class that the first character has to be
    in. [two_lines] has the four classes too and is refused: the [.] of
    the lookaheads stops at a line terminator. [Password@123] passes the
    pattern and [password123] fails it. *)
Theorem C6_password_rule_on_code :
  (length_between 6 128 (str "#Abc1@") = true
   ∧ has_four_classes (str "#Abc1@") = true
   ∧ createPassword_accepts (str "#Abc1@") = false
   ∧ reported (jo_password (str "#Abc1@"))
     = [{| field := str "createPassword";
           message := Text (str "Password must contain at least one uppercase letter, one lowercase letter, one number, and one special character") |}])
  ∧ (length_between 6 128 two_lines = true
     ∧ has_four_classes two_lines = true
     ∧ createPassword_accepts two_lines = false)
  ∧ test password_pattern (str "Password@123") = true
  ∧ test password_pattern (str "password123") = false.
Proof. repeat split; vm_compute; reflexivity. Qed.

(** C9, on the code: [jo_role] passes validation and no error names
    [role]; the value Joi returns has the field stripped, and it is the
    body as received, [role] included, that goes on to the handler. The
    record that is stored has no field [role]: the handler reads five
    fields of the body. *)
Theorem C9_unknown_field_on_code :
  reported jo_role = []
  ∧ Joi.value (Joi.validate registrationSchema jo_role prefs) = jo
  ∧ validateRegistration jo_role = Next jo_role
  ∧ jo_role !! str "role" = Some (JStr (str "admin"))
  ∧ post_register env0 [] jo_role = post_register env0 [] jo
  ∧ Forall (λ d : Doc, d !! str "role" = None) (snd (post_register env0 [] jo_role)).
Proof.
  split_and!; try (vm_compute; reflexivity).
  apply (bool_decide_unpack _). vm_compute. reflexivity.
Qed.

(** A body with no field at all: one pair for each field, with the
    text the schema gives to [any.required]. *)
Example empty_body_reported :
  reported ∅
  = [{| field := str "firstName"; message := Text (str "First name is required") |};
     {| field := str "lastName"; message := Text (str "Last name is required") |};
     {| field := str "email"; message := Text (str "Email is required") |};
     {| field := str "phoneNo"; message := Text (str "Phone number is required") |};
     {| field := str "createPassword"; message := Text (str "Password is required") |};
     {| field := str "confirmPassword";
        message := Text (str "Confirm password is required") |}].
Proof. vm_compute. reflexivity. Qed.

(** A short first name with a digit in it: two pairs for the field. *)
Example short_firstName_reported :
  reported (<[str "firstName" := JStr (str "1")]> jo)
  = [{| field := str "firstName";
        message := Text (str "First name must be at least 2 characters long") |};
     {| field := str "firstName";
        message := Text (str "First name can only contain letters and spaces") |}].
Proof. vm_compute. reflexivity. Qed.

(** A registered user in the listing: the four fields of the body, no
    password. *)
Example jo_listed :
  ∃ d, fst (get_users env0 db_jo) = listing [d]
       ∧ d !! str "firstName" = jo !! str "firstName"
       ∧ d !! str "lastName" = jo !! str "lastName"
       ∧ d !! str "email" = jo !! str "email"
       ∧ d !! str "phoneNo" = jo !! str "phoneNo"
       ∧ d !! str "password" = None.
Proof. eexists. repeat split; vm_compute; reflexivity. Qed.

(** In the store of the two registrations, a store that reaches the
    record of [al] first answers [cy] with the conflict on [email]. *)
Example cy_other_plan :
  fst (post_register
         {| findOne_throws := None; findOne_plan := 1; save_throws := None;
            find_throws := None; new_id := str "id3";
            now := str "2024-01-03T00:00:00.000Z"; salt := str "s3" |}
         db_jo_al cy)
  = Responded (conflict (str "email") (Text (str "Email is already registered"))).
Proof. vm_compute. reflexivity. Qed.

Example password_examples :
  test password_pattern (str "Password@123") = true
  ∧ test password_pattern (str "password123") = false
  ∧ test password_pattern (str "#Abc1@") = false
  ∧ test password_pattern (str "Abc123!@#") = true.
Proof. repeat split; vm_compute; reflexivity. Qed.

Example name_and_phone_examples :
  test name_pattern (str "Jo Doe") = true
  ∧ test name_pattern (str "") = false
  ∧ test name_pattern (str "J0") = false
  ∧ test phone_pattern (str "1234567890") = true
  ∧ test phone_pattern (str "12345678901") = false
  ∧ test phone_pattern (str "12345-7890") = false.
Proof. repeat split; vm_compute; reflexivity. Qed.

End Scenarios.


(** * Further properties *)

(** ** What the schema accepts *)

Section AcceptanceFacts.
Context `{Library}.

Import Joi.

Implicit Types (body : Doc) (k : jsstring) (sch : StringSchema) (s : jsstring).

Lemma validate_rules_nil sch k s :
  validate_rules sch k s = [] ↔ forallb (λ r, rule_ok r s) (rules sch) = true.
Proof.
  unfold validate_rules. induction (rules sch) as [|r rs IH]; [done|].
  cbn [flat_map forallb]. destruct (rule_ok r s); [done|]. by split.
Qed.

(** A required key without a reference: no error exactly for a
    non-empty string that passes every rule. *)
Lemma key_accepts_iff body k sch :
  valid_ref sch = None → required sch = true → allows_empty sch = false →
  validate_key body k sch = []
  ↔ ∃ s, body !! k = Some (JStr s) ∧ s ≠ []
         ∧ forallb (λ r, rule_ok r s) (rules sch) = true.
Proof.
  intros Hv Hq He. unfold validate_key, validate_base. rewrite Hv, Hq, He.
  destruct (body !! k) as [[[|c s]|o]|].
  - split; [done | by intros (? & [= <-] & ? & _)].
  - rewrite validate_rules_nil. split; [by exists (c :: s) | by intros (? & [= <-] & _ & ?)].
  - split; [done | by intros (? & ? & _)].
  - split; [done | by intros (? & ? & _)].
Qed.

Lemma name_key_iff body k sch :
  rules sch = [Min 2; Max 50; Pattern name_pattern] →
  valid_ref sch = None → required sch = true →
  validate_key body k sch = [] ↔ string_field body k name_accepts.
Proof.
  intros Hr Hv Hq. rewrite key_accepts_iff by (by unfold allows_empty; rewrite ?Hr).
  rewrite Hr. unfold string_field, name_accepts. cbn [forallb rule_ok].
  split; intros (s & Hs & Hok); exists s; (split; [done|]).
  - destruct Hok as [_ Hok]. rewrite !andb_true_iff in Hok.
    destruct Hok as (Hlo & Hhi & [_ Hp]%name_pattern_spec & _).
    by rewrite Hlo, Hhi, Hp.
  - rewrite !andb_true_iff in Hok. destruct Hok as [[Hlo Hhi] Hp].
    assert (s ≠ []) as Hne by (intros ->; done). split; [done|].
    rewrite Hlo, Hhi. cbn. rewrite andb_true_r. by apply name_pattern_spec.
Qed.

Lemma email_key_iff body :
  validate_key body (str "email") email_schema = []
  ↔ string_field body (str "email") isEmail.
Proof.
  rewrite key_accepts_iff by done. unfold string_field. cbn [rules email_schema forallb rule_ok].
  split; intros (s & Hs & Hok); exists s; (split; [done|]).
  - destruct Hok as [_ Hok]. by rewrite andb_true_r in Hok.
  - split; [|by rewrite Hok]. intros ->. by rewrite isEmail_empty in Hok.
Qed.

Lemma phoneNo_key_iff body :
  validate_key body (str "phoneNo") phoneNo_schema = []
  ↔ string_field body (str "phoneNo") phoneNo_accepts.
Proof.
  rewrite key_accepts_iff by done. unfold string_field, phoneNo_accepts.
  cbn [rules phoneNo_schema forallb rule_ok].
  split; intros (s & Hs & Hok); exists s; (split; [done|]).
  - destruct Hok as [_ Hok]. rewrite andb_true_r in Hok.
    apply phone_pattern_spec in Hok as [Hl Hd].
    by rewrite Hd, andb_true_r, Nat.eqb_eq.
  - apply andb_true_iff in Hok as [Hl%Nat.eqb_eq Hd].
    split; [by intros ->|]. rewrite andb_true_r. by apply phone_pattern_spec.
Qed.

Lemma createPassword_key_iff body :
  validate_key body (str "createPassword") createPassword_schema = []
  ↔ string_field body (str "createPassword") createPassword_accepts.
Proof.
  unfold string_field. split.
  - intros Hk.
    destruct (validate_key_nil_string body _ createPassword_schema eq_refl eq_refl Hk)
      as [s Hs].
    exists s. split; [done|]. by apply (createPassword_key body s Hs).
  - intros (s & Hs & Hok). by apply (createPassword_key body s Hs).
Qed.

Lemma confirmPassword_key_iff body :
  validate_key body (str "confirmPassword") confirmPassword_schema = []
  ↔ is_Some (body !! str "confirmPassword")
    ∧ body !! str "confirmPassword" = body !! str "createPassword".
Proof.
  unfold validate_key. cbn [valid_ref required confirmPassword_schema].
  destruct (body !! str "confirmPassword") as [v|]; [|split; [done | by intros [[? ?] _]]].
  case_decide as Hd.
  - split; [by intros _; split; [eexists|] | done].
  - split; [done | by intros [_ ?]].
Qed.

Lemma details_nil_iff body :
  details body = []
  ↔ validate_key body (str "firstName") firstName_schema = []
    ∧ validate_key body (str "lastName") lastName_schema = []
    ∧ validate_key body (str "email") email_schema = []
    ∧ validate_key body (str "phoneNo") phoneNo_schema = []
    ∧ validate_key body (str "createPassword") createPassword_schema = []
    ∧ validate_key body (str "confirmPassword") confirmPassword_schema = [].
Proof.
  unfold details, registrationSchema. cbn [flat_map fst snd].
  rewrite !app_nil. split; [by intros (? & ? & ? & ? & ? & ? & _) | ].
  by intros (? & ? & ? & ? & ? & ?).
Qed.

(** [p* X] from the start of [s], as a split of [s]. *)
Lemma reach_split (p X : N → bool) s :
  reach p X s = true
  ↔ ∃ pre c post, s = pre ++ c :: post ∧ forallb p pre = true ∧ X c = true.
Proof.
  induction s as [|a s IH]; cbn [reach].
  - split; [done | by intros ([|??] & ? & ? & ? & _)].
  - rewrite orb_true_iff, andb_true_iff, IH. split.
    + intros [Ha|[Ha (pre & c & post & -> & Hp & Hc)]].
      * by exists [], a, s.
      * exists (a :: pre), c, post. split_and!; [done | | done].
        cbn. by rewrite Ha.
    + intros ([|b pre] & c & post & Hs & Hp & Hc).
      * injection Hs as -> ->. by left.
      * injection Hs as -> ->. cbn in Hp. apply andb_true_iff in Hp as [Hb Hp].
        right. split; [done|]. by exists pre, c, post.
Qed.

(** The pairs of a body, field by field in the order of the schema. *)
Lemma reported_fields body :
  reported body
  = pairs_of (str "firstName") body ++ pairs_of (str "lastName") body
    ++ pairs_of (str "email") body ++ pairs_of (str "phoneNo") body
    ++ pairs_of (str "createPassword") body
    ++ pairs_of (str "confirmPassword") body.
Proof.
  rewrite (pairs_of_key body _ firstName_schema),
          (pairs_of_key body _ lastName_schema),
          (pairs_of_key body _ email_schema),
          (pairs_of_key body _ phoneNo_schema),
          (pairs_of_key body _ createPassword_schema),
          (pairs_of_key body _ confirmPassword_schema)
    by (unfold registrationSchema; set_solver).
  unfold reported, details, registrationSchema. cbn [flat_map fst snd].
  by rewrite !fmap_app, fmap_nil, app_nil_r.
Qed.

Lemma key_min_max_pattern_bound k sch lo hi re body :
  rules sch = [Min lo; Max hi; Pattern re] → valid_ref sch = None →
  (lo ≤ hi)%nat →
  (length (validate_key body k sch) ≤ 2)%nat.
Proof.
  intros Hr Hv Hlo.
  assert (∀ s, (length (validate_rules sch k s) ≤ 2)%nat) as Hrules.
  { intros s. unfold validate_rules. rewrite Hr. cbn [flat_map rule_ok rule_type].
    destruct (lo <=? length s) eqn:E1, (length s <=? hi) eqn:E2, (test re s);
      cbn; try lia.
    all: apply Nat.leb_gt in E1, E2; lia. }
  unfold validate_key, validate_base. rewrite Hv.
  destruct (body !! k) as [[[|c s]|o]|]; [|done|cbn; lia|destruct (required sch); cbn; lia].
  destruct (allows_empty sch); [done|cbn; lia].
Qed.

Lemma key_one_rule_bound k sch (r : Rule) body :
  rules sch = [r] → valid_ref sch = None →
  (length (validate_key body k sch) ≤ 1)%nat.
Proof.
  intros Hr Hv.
  assert (∀ s, (length (validate_rules sch k s) ≤ 1)%nat) as Hrules.
  { intros s. unfold validate_rules. rewrite Hr. cbn [flat_map].
    destruct (rule_ok r s); cbn; lia. }
  unfold validate_key, validate_base. rewrite Hv.
  destruct (body !! k) as [[[|c s]|o]|]; [|done|cbn; lia|destruct (required sch); cbn; lia].
  destruct (allows_empty sch); [done|cbn; lia].
Qed.

Lemma key_reference_bound k sch g body :
  rules sch = [] → valid_ref sch = Some g →
  (length (validate_key body k sch) ≤ 2)%nat.
Proof.
  intros Hr Hv. unfold validate_key, validate_base, validate_rules.
  rewrite Hr, Hv. cbn [flat_map].
  destruct (body !! k) as [[[|c s]|o]|]; [| | |destruct (required sch); cbn; lia];
    case_decide; cbn; try lia.
  destruct (allows_empty sch); cbn; lia.
Qed.

End AcceptanceFacts.

(** ** Validation *)

(** X1: the middleware calls [next()] exactly for the bodies whose
    first and last name are strings of 2 to 50 letters and white space
    characters, whose email is a string the address check accepts, whose
    phone number is a string of ten digits, whose password is a string
    the password rules accept and whose [confirmPassword] is equal to it. *)
Theorem validation_accepts_iff `{Library} (body : Doc) :
  validateRegistration body = Next body ↔ accepted body.
Proof.
  rewrite validateRegistration_next, details_nil_iff.
  rewrite (name_key_iff body (str "firstName") firstName_schema) by done.
  rewrite (name_key_iff body (str "lastName") lastName_schema) by done.
  rewrite email_key_iff, phoneNo_key_iff, createPassword_key_iff,
          confirmPassword_key_iff.
  unfold accepted. split.
  - by intros [(? & ? & ? & ? & ? & _ & ?) _].
  - intros (? & ? & ? & ? & Hp & Hc). split; [|done]. split_and!; try done.
    rewrite Hc. destruct Hp as (s & -> & _). by eexists.
Qed.

(** X2: the rules of [createPassword] accept exactly the strings of 6
    to 128 characters whose first character is in [[A-Za-z0-9@$!%*?&]]
    and that have a lower-case letter, an upper-case letter, a digit and
    a special character, each with no line terminator before it. *)
Theorem createPassword_accepts_iff (s : jsstring) :
  createPassword_accepts s = true
  ↔ (6 ≤ length s ≤ 128)%nat
    ∧ (∃ c rest, s = c :: rest ∧ Chars.password_char c = true)
    ∧ on_first_line Chars.lower s ∧ on_first_line Chars.upper s
    ∧ on_first_line Chars.digit s ∧ on_first_line Chars.special s.
Proof.
  unfold createPassword_accepts, length_between, on_first_line.
  rewrite password_pattern_spec, !andb_true_iff, !reach_split, !Nat.leb_le.
  split.
  - intros [Hlen [[[[Hl Hu] Hd] Hs] Hc]].
    split; [done|]. split; [|done].
    destruct s as [|c rest]; [done|]. by exists c, rest.
  - intros (Hlen & (c & rest & -> & Hc) & Hl & Hu & Hd & Hs). done.
Qed.

(** X3: the pairs of the validation failure come field by field in
    the order of the schema: those of [firstName], then those of
    [lastName], [email], [phoneNo], [createPassword] and
    [confirmPassword]; and there are at most ten of them. *)
Theorem reported_in_schema_order `{Library} (body : Doc) :
  reported body
  = pairs_of (str "firstName") body ++ pairs_of (str "lastName") body
    ++ pairs_of (str "email") body ++ pairs_of (str "phoneNo") body
    ++ pairs_of (str "createPassword") body
    ++ pairs_of (str "confirmPassword") body
  ∧ (length (reported body) ≤ 10)%nat.
Proof.
  split; [apply reported_fields|].
  unfold reported, details, registrationSchema. cbn [flat_map fst snd].
  rewrite length_fmap, !length_app. cbn [length].
  pose proof (key_min_max_pattern_bound (str "firstName") firstName_schema 2 50
                name_pattern body eq_refl eq_refl ltac:(lia)).
  pose proof (key_min_max_pattern_bound (str "lastName") lastName_schema 2 50
                name_pattern body eq_refl eq_refl ltac:(lia)).
  pose proof (key_one_rule_bound (str "email") email_schema Joi.Email body
                eq_refl eq_refl).
  pose proof (key_one_rule_bound (str "phoneNo") phoneNo_schema
                (Joi.Pattern phone_pattern) body eq_refl eq_refl).
  pose proof (key_min_max_pattern_bound (str "createPassword") createPassword_schema
                6 128 password_pattern body eq_refl eq_refl ltac:(lia)).
  pose proof (key_reference_bound (str "confirmPassword") confirmPassword_schema
                (str "createPassword") body eq_refl eq_refl).
  lia.
Qed.

(** ** Registration and listing *)

Section RegistrationFacts.
Context `{Library}.

Implicit Types (env : Env) (db : list Doc) (body : Doc) (k : jsstring).

Lemma details_same_known body body' :
  same_known body body' → details body = details body'.
Proof. intros Hk. apply details_ext. by apply Forall_forall. Qed.

(** The handler reads five fields of the body. *)
Lemma registerHandler_ext env db body body' :
  same_known body body' →
  registerHandler env db body = registerHandler env db body'.
Proof.
  intros Hk. unfold same_known in Hk. rewrite Forall_forall in Hk.
  unfold registerHandler, register_try.
  by rewrite (Hk (str "firstName")), (Hk (str "lastName")), (Hk (str "email")),
             (Hk (str "phoneNo")), (Hk (str "createPassword"))
    by (unfold known_fields; set_solver).
Qed.

Lemma findOne_None_fresh env db body :
  User.findOne env db (body !! str "email") (body !! str "phoneNo") = None →
  fresh db body.
Proof.
  unfold User.findOne, fresh. intros Hf. apply Forall_forall. intros d Hd.
  destruct (decide (d !! str "email" = body !! str "email"
                    ∨ d !! str "phoneNo" = body !! str "phoneNo")) as [Hm|Hm];
    [|by split; intros ?; apply Hm; auto].
  assert (d ∈ filter (λ d : Doc, d !! str "email" = body !! str "email"
                                  ∨ d !! str "phoneNo" = body !! str "phoneNo") db)
    as Hin by by apply list_elem_of_filter.
  apply lookup_ge_None in Hf.
  destruct (filter _ db) as [|d0 l] eqn:E; [by apply elem_of_nil in Hin|].
  pose proof (Nat.mod_upper_bound (findOne_plan env) (length (d0 :: l))) as Hlt.
  cbn [length] in *. lia.
Qed.

(** What a registration that ends in 201 went through. *)
Lemma post_register_201 env db body (r : Response) db' :
  post_register env db body = (Responded r, db') → status r = 201%Z →
  details body = [] ∧ fresh db body
  ∧ r = created (delete (str "password") (saved_user env body))
  ∧ db' = db ++ [saved_user env body].
Proof.
  intros Hp Hs. destruct (details body) as [|d ds] eqn:Ed.
  - rewrite post_register_valid in Hp by done.
    destruct (findOne_throws env) as [e|] eqn:He.
    { rewrite (registerHandler_findOne_throws _ _ _ e He) in Hp.
      injection Hp as Hp <-. apply register_catch_status in Hp. lia. }
    destruct (User.findOne env db (body !! str "email") (body !! str "phoneNo"))
      as [d|] eqn:Hd.
    { rewrite (registerHandler_existing _ _ _ d He Hd) in Hp.
      injection Hp as <- <-. by case_bool_decide. }
    destruct (save_throws env) as [e|] eqn:Hsv.
    { rewrite (registerHandler_save_throws _ _ _ e He Hd Hsv) in Hp.
      injection Hp as Hp <-. apply register_catch_status in Hp. lia. }
    rewrite (registerHandler_saved _ _ _ He Hd Hsv) in Hp.
    injection Hp as <- <-. split_and!; try done. by apply (findOne_None_fresh env).
  - rewrite post_register_invalid in Hp by (by rewrite Ed). by injection Hp as <- <-.
Qed.

Lemma register_catch_shape (e : JsError) (r : Response) :
  register_catch e = Responded r → well_shaped r.
Proof.
  unfold register_catch, well_shaped. repeat case_decide.
  - destruct (e_errors e); [|done]. intros [= <-]. right. cbn. eauto 10.
  - destruct (e_keyPattern e) as [[??]|]; [|done]. intros [= <-]. right. cbn. eauto 10.
  - intros [= <-]. right. cbn. eauto 10.
Qed.

Lemma lookup_new_other (fn ln em ph pw : option JVal) k :
  k ∉ [str "firstName"; str "lastName"; str "email"; str "phoneNo"; str "password"] →
  User.new fn ln em ph pw !! k = None.
Proof.
  rewrite !not_elem_of_cons. intros (? & ? & ? & ? & ? & _).
  unfold User.new. rewrite !lookup_set_ne by done. apply lookup_empty.
Qed.

Lemma valid_fields body k :
  details body = [] →
  k ∈ [str "firstName"; str "lastName"; str "email"; str "phoneNo"; str "createPassword"] →
  ∃ s, body !! k = Some (JStr s).
Proof.
  intros Hd. rewrite !elem_of_cons, elem_of_nil.
  intros [->|[->|[->|[->|[->|[]]]]]].
  - apply (validate_key_nil_string body _ firstName_schema); [done..|].
    apply details_nil; [done | unfold registrationSchema; set_solver].
  - apply (validate_key_nil_string body _ lastName_schema); [done..|].
    apply details_nil; [done | unfold registrationSchema; set_solver].
  - apply (validate_key_nil_string body _ email_schema); [done..|].
    apply details_nil; [done | unfold registrationSchema; set_solver].
  - apply (validate_key_nil_string body _ phoneNo_schema); [done..|].
    apply details_nil; [done | unfold registrationSchema; set_solver].
  - by apply valid_createPassword.
Qed.

End RegistrationFacts.

(** X4: the response and the store after a registration depend on the
    six known fields of the body only: two bodies that differ in other
    fields are answered alike. *)
Theorem registration_reads_known_fields `{Library}
    (env : Env) (db : list Doc) (body body' : Doc) :
  same_known body body' →
  post_register env db body = post_register env db body'.
Proof.
  intros Hk. pose proof (details_same_known body body' Hk) as Hd.
  destruct (details body) as [|d ds] eqn:Ed.
  - rewrite !post_register_valid by done. by apply registerHandler_ext.
  - rewrite (post_register_invalid env db body) by (by rewrite Ed).
    rewrite (post_register_invalid env db body') by (by rewrite <- Hd).
    unfold reported. by rewrite Ed, <- Hd.
Qed.

(** X5: a registration never removes or changes a stored record: the
    store after it is the store before it, or the store before it with
    one record added at the end, and it is the latter exactly when the
    answer is 201. Listing leaves the store as it is. *)
Theorem store_only_grows `{Library} (env : Env) (db : list Doc) (body : Doc)
    (out : Outcome) (db' : list Doc) :
  post_register env db body = (out, db') →
  (db' = db ∨ ∃ saved, db' = db ++ [saved])
  ∧ (db' ≠ db ↔ ∃ r, out = Responded r ∧ status r = 201%Z)
  ∧ snd (get_users env db) = db.
Proof.
  intros [[-> Hout]|(Hd & -> & ->)]%post_register_cases; split_and!.
  - by left.
  - split; [done|]. intros (r & Hr & Hs). by destruct (Hout r Hr).
  - unfold get_users. by destruct (User.find_select_minus _ _ _).
  - right. by eexists.
  - split; [by eexists|]. intros _ Heq. apply (f_equal length) in Heq.
    rewrite length_app in Heq. cbn in Heq. lia.
  - unfold get_users. by destruct (User.find_select_minus _ _ _).
Qed.

(** X6: a store in which no two records have the same email and no two
    the same phone number is still such a store after a registration,
    whatever the registration answers. *)
Theorem uniqueness_preserved `{Library} (env : Env) (db : list Doc) (body : Doc)
    (out : Outcome) (db' : list Doc) :
  unique_on (str "email") db → unique_on (str "phoneNo") db →
  post_register env db body = (out, db') →
  unique_on (str "email") db' ∧ unique_on (str "phoneNo") db'.
Proof.
  intros He Hp Hr. pose proof Hr as [[-> _]|(Hd & -> & ->)]%post_register_cases;
    [done|].
  apply (post_register_201 env db body _ _) in Hr as (_ & Hf & _); [|done].
  unfold fresh in Hf. rewrite Forall_forall in Hf.
  unfold unique_on in *. rewrite !fmap_app. cbn [fmap list_fmap].
  split; apply NoDup_app; (split; [done|]); (split; [|apply NoDup_singleton]);
    intros x (d & -> & Hin)%list_elem_of_fmap Heq%list_elem_of_singleton;
    destruct (Hf d Hin) as [Hne1 Hne2];
    [apply Hne1 | apply Hne2]; rewrite Heq; apply lookup_saved_user;
    repeat constructor.
Qed.

(** X7: a body that was registered cannot be registered again: after
    a registration that answered 201, the same body, in a request whose
    lookup answers, gets the conflict on [email] and the store stays as
    the first registration left it. *)
Theorem second_registration_conflicts `{Library}
    (env env' : Env) (db db' : list Doc) (body : Doc) (r : Response) :
  post_register env db body = (Responded r, db') → status r = 201%Z →
  findOne_throws env' = None →
  post_register env' db' body
  = (Responded (conflict (str "email") (Text (str "Email is already registered"))),
     db').
Proof.
  intros Hp Hs He.
  destruct (post_register_201 env db body r db' Hp Hs) as (Hd & Hf & _ & ->).
  rewrite post_register_valid by done.
  assert (saved_user env body !! str "email" = body !! str "email") as Hem
    by (apply lookup_saved_user; repeat constructor).
  destruct (findOne_is_Some env' (db ++ [saved_user env body])
              (body !! str "email") (body !! str "phoneNo") (saved_user env body))
    as [d' Hd']; [apply elem_of_app; right; by left | by left |].
  rewrite (registerHandler_existing env' _ body d' He Hd').
  apply findOne_Some in Hd' as [Hin Hm].
  rewrite bool_decide_eq_true_2; [done|].
  apply elem_of_app in Hin as [Hin|Hin%list_elem_of_singleton]; [|by subst].
  unfold fresh in Hf. rewrite Forall_forall in Hf.
  destruct (Hf d' Hin) as [Hne1 Hne2]. by destruct Hm.
Qed.

(** X8: a registered user is listed: after a registration that
    answered 201, a listing whose lookup answers returns the records of
    the store before, without their passwords, followed by one more,
    which is the [data] of the 201 response: it has the first name, last
    name, email and phone number of the body and no password. *)
Theorem registered_then_listed `{Library}
    (env env' : Env) (db db' : list Doc) (body : Doc) (r : Response) :
  post_register env db body = (Responded r, db') → status r = 201%Z →
  find_throws env' = None →
  ∃ d,
    get_users env' db'
    = (listing ((delete (str "password") <$> db) ++ [d]), db')
    ∧ data r = Some (One d)
    ∧ d !! str "password" = None
    ∧ ∀ k, k ∈ [str "firstName"; str "lastName"; str "email"; str "phoneNo"] →
           d !! k = body !! k.
Proof.
  intros Hp Hs Hf.
  destruct (post_register_201 env db body r db' Hp Hs) as (_ & _ & -> & ->).
  exists (delete (str "password") (saved_user env body)). split_and!.
  - unfold get_users, User.find_select_minus. rewrite Hf. cbn.
    by rewrite fmap_app.
  - done.
  - apply lookup_delete_eq.
  - intros k Hk. rewrite lookup_delete_ne; [by apply lookup_saved_user|].
    intros <-. revert Hk. rewrite !elem_of_cons, elem_of_nil.
    by intros [?|[?|[?|[?|[]]]]].
Qed.

(** X9: a valid body whose phone number a stored record has, while no
    stored record has its email, is answered, when the lookup answers,
    with the conflict on [phoneNo], and nothing is stored. *)
Theorem conflict_on_phoneNo `{Library} (env : Env) (db : list Doc) (body : Doc) :
  validateRegistration body = Next body →
  findOne_throws env = None →
  (∃ d, d ∈ db ∧ d !! str "phoneNo" = body !! str "phoneNo") →
  (∀ d, d ∈ db → d !! str "email" ≠ body !! str "email") →
  post_register env db body
  = (Responded {| status := 400; success := false;
                  r_message := Text (str "User already exists");
                  errors := Some [{| field := str "phoneNo";
                                     message := Text (str "Phone number is already registered") |}];
                  data := None |},
     db).
Proof.
  intros [Hd _]%validateRegistration_next He (d & Hin & Hm) Hemail.
  rewrite post_register_valid by done.
  destruct (findOne_is_Some env db (body !! str "email") (body !! str "phoneNo") d Hin)
    as [d' Hd']; [by right|].
  rewrite (registerHandler_existing env db body d' He Hd').
  apply findOne_Some in Hd' as [Hin' _].
  by rewrite bool_decide_eq_false_2 by by apply Hemail.
Qed.

(** X10: when the store refuses the record by its own validation
    ([save] throws a [ValidationError] with its [errors]), the answer is
    400, "Validation failed", with one pair for each of the errors of the
    store, its [path] as the field and its [message] as the message, in
    their order; nothing is stored. *)
Theorem store_validation_error `{Library}
    (env : Env) (db : list Doc) (body : Doc) (e : JsError)
    (errs : list (jsstring * jsstring)) :
  validateRegistration body = Next body →
  fresh db body →
  findOne_throws env = None →
  save_throws env = Some e →
  e_name e = str "ValidationError" → e_errors e = Some errs →
  post_register env db body
  = (Responded {| status := 400; success := false;
                  r_message := Text (str "Validation failed");
                  errors := Some ((λ err, {| field := err.1; message := Text err.2 |})
                                    <$> errs);
                  data := None |},
     db).
Proof.
  intros [Hd _]%validateRegistration_next Hf He Hs Hn Herrs.
  rewrite post_register_valid by done.
  rewrite (registerHandler_save_throws env db body e He (findOne_fresh env db body Hf) Hs).
  unfold register_catch. by rewrite decide_True, Herrs.
Qed.

(** X11: when the lookup throws, no record is written, whatever [save]
    would have done and whatever the store holds, and the answer is the
    one of the [catch] block: for an error that is neither a validation
    error nor a duplicate key, 500 with the generic message. *)
Theorem lookup_failure `{Library} (env : Env) (db : list Doc) (body : Doc) (e : JsError) :
  validateRegistration body = Next body →
  findOne_throws env = Some e →
  snd (post_register env db body) = db
  ∧ (e_name e ≠ str "ValidationError" → e_code e ≠ Some 11000%Z →
     fst (post_register env db body)
     = Responded {| status := 500; success := false;
                    r_message := Text (str "Internal server error");
                    errors := Some [{| field := str "server";
                                       message := Text (str "Something went wrong. Please try again later.") |}];
                    data := None |}).
Proof.
  intros [Hd _]%validateRegistration_next He.
  rewrite post_register_valid by done.
  rewrite (registerHandler_findOne_throws env db body e He). split; [done|].
  intros Hn Hc. unfold register_catch. by rewrite !decide_False.
Qed.

(** X12: the [catch] block can throw: for a duplicate-key error that
    carries no key pattern, and for a validation error that carries no
    [errors], the handler sends no response; nothing is stored. *)
Theorem catch_block_throws `{Library} (env : Env) (db : list Doc) (body : Doc) (e : JsError) :
  validateRegistration body = Next body →
  fresh db body →
  findOne_throws env = None →
  save_throws env = Some e →
  (e_name e ≠ str "ValidationError" ∧ e_code e = Some 11000%Z ∧ e_keyPattern e = None)
  ∨ (e_name e = str "ValidationError" ∧ e_errors e = None) →
  post_register env db body = (Escaped, db).
Proof.
  intros [Hd _]%validateRegistration_next Hf He Hs Hcase.
  rewrite post_register_valid by done.
  rewrite (registerHandler_save_throws env db body e He (findOne_fresh env db body Hf) Hs).
  unfold register_catch. destruct Hcase as [(Hn & Hc & Hk)|[Hn Herrs]].
  - by rewrite decide_False, decide_True, Hk.
  - by rewrite decide_True, Herrs.
Qed.

(** X13: every response of the registration route is 201, 400 or 500;
    it has [success: true], a record as [data] and no [errors] when it is
    201, and [success: false], an [errors] array and no [data] when it is
    400 or 500. Every response of the listing route is 200 with a list as
    [data], or 500 with [success: false] and neither [data] nor
    [errors]. *)
Theorem responses_well_shaped `{Library} (env : Env) (db : list Doc) (body : Doc) :
  (∀ r, fst (post_register env db body) = Responded r → well_shaped r)
  ∧ ((status (fst (get_users env db)) = 200%Z
      ∧ success (fst (get_users env db)) = true
      ∧ ∃ ds, data (fst (get_users env db)) = Some (Many ds))
     ∨ (status (fst (get_users env db)) = 500%Z
        ∧ success (fst (get_users env db)) = false
        ∧ data (fst (get_users env db)) = None
        ∧ errors (fst (get_users env db)) = None)).
Proof.
  split.
  - intros r Hr. destruct (post_register env db body) as [out db'] eqn:Hp.
    cbn in Hr. subst out.
    destruct (details body) as [|d ds] eqn:Ed.
    + rewrite post_register_valid in Hp by done.
      destruct (findOne_throws env) as [e|] eqn:He.
      { rewrite (registerHandler_findOne_throws _ _ _ e He) in Hp.
        injection Hp as Hp _. by apply register_catch_shape in Hp. }
      destruct (User.findOne env db (body !! str "email") (body !! str "phoneNo"))
        as [d|] eqn:Hd.
      { rewrite (registerHandler_existing _ _ _ d He Hd) in Hp.
        injection Hp as <- _. right. case_bool_decide; cbn; eauto 10. }
      destruct (save_throws env) as [e|] eqn:Hsv.
      { rewrite (registerHandler_save_throws _ _ _ e He Hd Hsv) in Hp.
        injection Hp as Hp _. by apply register_catch_shape in Hp. }
      rewrite (registerHandler_saved _ _ _ He Hd Hsv) in Hp.
      injection Hp as <- _. left. cbn. eauto 10.
    + rewrite post_register_invalid in Hp by (by rewrite Ed).
      injection Hp as <- _. right. cbn. eauto 10.
  - unfold get_users, User.find_select_minus.
    destruct (find_throws env); cbn; [right | left]; eauto 10.
Qed.

(** X14: the record a registration stores has the keys [_id],
    [firstName], [lastName], [email], [phoneNo], [password], [createdAt]
    and [updatedAt] and no other: neither [createPassword] nor
    [confirmPassword] nor any other field of the body is stored. *)
Theorem stored_record_keys `{Library} (env : Env) (db db' : list Doc) (body : Doc)
    (r : Response) :
  post_register env db body = (Responded r, db') → status r = 201%Z →
  ∃ saved, db' = db ++ [saved]
           ∧ ∀ k, is_Some (saved !! k) ↔ k ∈ stored_keys.
Proof.
  intros Hp Hs.
  destruct (post_register_201 env db body r db' Hp Hs) as (Hd & _ & _ & ->).
  exists (saved_user env body). split; [done|]. intros k.
  destruct (valid_createPassword body Hd) as [raw Hraw].
  pose proof (lookup_saved_password env body raw Hraw) as Hpw.
  assert (∀ k', k' ∈ [str "firstName"; str "lastName"; str "email"; str "phoneNo"] →
            is_Some (saved_user env body !! k')) as Hfour.
  { intros k' Hk'. rewrite lookup_saved_user by done.
    destruct (valid_fields body k' Hd) as [s ->]; [|by eexists].
    revert Hk'. rewrite !elem_of_cons, !elem_of_nil. tauto. }
  unfold stored_keys. rewrite !elem_of_cons, elem_of_nil. split.
  - intros Hk.
    destruct (decide (k = str "_id")) as [|N1]; [tauto|].
    destruct (decide (k = str "createdAt")) as [|N2]; [tauto|].
    destruct (decide (k = str "updatedAt")) as [|N3]; [tauto|].
    destruct (decide (k = str "password")) as [|N4]; [tauto|].
    destruct (decide (k = str "firstName")) as [|N5]; [tauto|].
    destruct (decide (k = str "lastName")) as [|N6]; [tauto|].
    destruct (decide (k = str "email")) as [|N7]; [tauto|].
    destruct (decide (k = str "phoneNo")) as [|N8]; [tauto|].
    exfalso. revert Hk. unfold saved_user.
    rewrite !lookup_insert_ne, lookup_hashPassword_ne by done.
    unfold new_user. rewrite lookup_new_other; [by intros [? ?]|].
    rewrite !not_elem_of_cons. by split_and!; [..|apply not_elem_of_nil].
  - intros [->|[->|[->|[->|[->|[->|[->|[->|[]]]]]]]]].
    + unfold saved_user. rewrite lookup_insert_eq. by eexists.
    + apply Hfour. repeat constructor.
    + apply Hfour. repeat constructor.
    + apply Hfour. repeat constructor.
    + apply Hfour. repeat constructor.
    + rewrite Hpw. by eexists.
    + unfold saved_user. rewrite lookup_insert_ne, lookup_insert_eq by done.
      by eexists.
    + unfold saved_user. rewrite !lookup_insert_ne, lookup_insert_eq by done.
      by eexists.
Qed.

Section TextFacts.
Context `{Library}.

Import Joi.

(** Membership in a list written out, case by case. *)
Ltac each_pair He :=
  repeat (apply elem_of_cons in He as [->|He]);
  [.. | by apply elem_of_nil in He].

Lemma key_texts (body : Doc) (k : jsstring) (sch : StringSchema) :
  (k, sch) ∈ registrationSchema →
  (body !! k = None →
   ∃ m, as_field_error <$> validate_key body k sch
        = [{| field := k; message := Text m |}])
  ∧ (k ≠ str "confirmPassword" → body !! k = Some (JStr []) →
     as_field_error <$> validate_key body k sch
     = [{| field := k; message := JoiDefault k string_empty |}])
  ∧ (k ≠ str "confirmPassword" → ∀ o, body !! k = Some (JOther o) →
     as_field_error <$> validate_key body k sch
     = [{| field := k; message := JoiDefault k string_base |}])
  ∧ (∀ e l t, e ∈ as_field_error <$> validate_key body k sch →
       message e = JoiDefault l t →
       l = k ∧ (t = string_empty ∨ t = string_base)).
Proof.
  revert k sch. apply in_registrationSchema_cases;
    unfold validate_key, validate_base, validate_rules, allows_empty;
    cbn [rules valid_ref required firstName_schema lastName_schema email_schema
         phoneNo_schema createPassword_schema confirmPassword_schema
         flat_map existsb orb app].
  all: split_and!;
    [ intros ->; eexists; reflexivity
    | try (intros _ ->; reflexivity); try done
    | try (intros _ o ->; reflexivity); try done
    | ].
  all: intros e l t; destruct (body !! _) as [[[|c s]|o]|];
    try case_decide;
    repeat match goal with
           | |- context [rule_ok ?r ?s] => destruct (rule_ok r s)
           end;
    cbn; intros He Hm; each_pair He; cbn in Hm; try discriminate;
    injection Hm as <- <-; auto.
Qed.

End TextFacts.

(** X15: the texts of the pairs. A missing field is reported with a
    text of the schema. Each of the first five fields, when it holds the
    empty string, is reported once with the default text of Joi for
    [string.empty], and, when it holds a value that is not a string, once
    with the default text for [string.base]. Every other pair has a text
    of the schema: a default text of Joi is one of those two. *)
Theorem reported_texts `{Library} (body : Doc) (f : jsstring) :
  f ∈ known_fields →
  (body !! f = None →
   ∃ m, pairs_of f body = [{| field := f; message := Text m |}])
  ∧ (f ≠ str "confirmPassword" → body !! f = Some (JStr []) →
     pairs_of f body = [{| field := f; message := JoiDefault f string_empty |}])
  ∧ (f ≠ str "confirmPassword" → ∀ o, body !! f = Some (JOther o) →
     pairs_of f body = [{| field := f; message := JoiDefault f string_base |}])
  ∧ (∀ e l t, e ∈ pairs_of f body → message e = JoiDefault l t →
       l = f ∧ (t = string_empty ∨ t = string_base)).
Proof.
  intros [sch Hf]%known_fields_schema.
  rewrite (pairs_of_key body f sch Hf). by apply key_texts.
Qed.

(** X16: a valid body that has the email or the phone number of a
    stored record is never registered: when the lookup answers, the
    answer is the conflict, on [email] or on [phoneNo], whichever record
    the store returns, and nothing is stored. *)
Theorem conflict_detected `{Library} (env : Env) (db : list Doc) (body : Doc) :
  validateRegistration body = Next body →
  findOne_throws env = None →
  (∃ d, d ∈ db ∧ (d !! str "email" = body !! str "email"
                  ∨ d !! str "phoneNo" = body !! str "phoneNo")) →
  post_register env db body
  = (Responded (conflict (str "email") (Text (str "Email is already registered"))), db)
  ∨ post_register env db body
    = (Responded (conflict (str "phoneNo")
                    (Text (str "Phone number is already registered"))), db).
Proof.
  intros [Hd _]%validateRegistration_next He (d & Hin & Hm).
  rewrite post_register_valid by done.
  destruct (findOne_is_Some env db (body !! str "email") (body !! str "phoneNo") d Hin Hm)
    as [d' Hd'].
  rewrite (registerHandler_existing env db body d' He Hd').
  case_bool_decide; [by left | by right].
Qed.

(** X17: users who share neither email nor phone number do not get in
    each other's way: after a registration that answered 201, a valid
    body with another email and another phone number, which no record of
    the store before had, is registered too, when the store answers, and
    the store holds the two new records in the order of the
    registrations. *)
Theorem registrations_compose `{Library}
    (env env' : Env) (db db' : list Doc) (body body' : Doc) (r : Response) :
  post_register env db body = (Responded r, db') → status r = 201%Z →
  validateRegistration body' = Next body' →
  fresh db body' →
  body !! str "email" ≠ body' !! str "email" →
  body !! str "phoneNo" ≠ body' !! str "phoneNo" →
  findOne_throws env' = None → save_throws env' = None →
  ∃ saved saved' r',
    db' = db ++ [saved]
    ∧ post_register env' db' body' = (Responded r', db ++ [saved; saved'])
    ∧ status r' = 201%Z
    ∧ data r' = Some (One (delete (str "password") saved')).
Proof.
  intros Hp Hs [Hd' _]%validateRegistration_next Hf' Hne Hnp He' Hs'.
  destruct (post_register_201 env db body r db' Hp Hs) as (_ & _ & _ & ->).
  exists (saved_user env body), (saved_user env' body'), 
    (created (delete (str "password") (saved_user env' body'))).
  split; [done|]. rewrite post_register_valid by done.
  rewrite (registerHandler_saved env' _ body' He'); [|apply findOne_fresh|done].
  - by rewrite <- app_assoc.
  - unfold fresh in *. apply Forall_app. split; [done|].
    apply Forall_singleton.
    rewrite !lookup_saved_user by repeat constructor. done.
Qed.

(** X18: only validated data reaches the store: if the names, the
    email and the phone number of every stored record are strings the
    schema accepts, they still are after a registration, whatever it
    answers. *)
Theorem stored_records_valid `{Library} (env : Env) (db : list Doc) (body : Doc)
    (out : Outcome) (db' : list Doc) :
  Forall valid_record db →
  post_register env db body = (out, db') →
  Forall valid_record db'.
Proof.
  intros Hdb [[-> _]|(Hd & -> & ->)]%post_register_cases; [done|].
  apply Forall_app. split; [done|]. apply Forall_singleton.
  apply details_nil_iff in Hd as (H1 & H2 & H3 & H4 & _).
  apply (name_key_iff body _ firstName_schema eq_refl eq_refl eq_refl) in H1.
  apply (name_key_iff body _ lastName_schema eq_refl eq_refl eq_refl) in H2.
  apply email_key_iff in H3. apply phoneNo_key_iff in H4.
  unfold valid_record, string_field in *.
  by rewrite !lookup_saved_user by repeat constructor.
Qed.

(** * Further scenarios *)

Section MoreScenarios.
#[local] Existing Instance demo.

Lemma validation_accepts_iff_witness : accepted jo.
Proof. apply validation_accepts_iff. vm_compute. reflexivity. Defined.

Lemma createPassword_accepts_iff_witness :
  on_first_line Chars.digit (str "Abc123!@")
  ∧ on_first_line Chars.special (str "Abc123!@").
Proof.
  destruct (createPassword_accepts_iff (str "Abc123!@")) as [Hto _].
  destruct Hto as (_ & _ & _ & _ & Hd & Hs); [reflexivity | by split].
Defined.

Lemma registration_reads_known_fields_witness :
  post_register env0 [] jo_role = post_register env0 [] jo.
Proof.
  apply registration_reads_known_fields.
  unfold same_known. apply (bool_decide_unpack _). vm_compute. reflexivity.
Defined.

Lemma jo_registered :
  post_register env0 [] jo
  = (Responded (created (delete (str "password") (saved_user env0 jo))), db_jo).
Proof. vm_compute. reflexivity. Qed.

Lemma al_registered :
  post_register env1 db_jo al
  = (Responded (created (delete (str "password") (saved_user env1 al))), db_jo_al).
Proof. vm_compute. reflexivity. Qed.

Lemma store_only_grows_witness :
  (db_jo_al = db_jo ∨ ∃ saved, db_jo_al = db_jo ++ [saved])
  ∧ (db_jo_al ≠ db_jo
     ↔ ∃ r, Responded (created (delete (str "password") (saved_user env1 al)))
            = Responded r ∧ status r = 201%Z)
  ∧ snd (get_users env1 db_jo) = db_jo.
Proof. apply (store_only_grows env1 db_jo al). exact al_registered. Defined.

Lemma uniqueness_preserved_witness :
  unique_on (str "email") db_jo_al ∧ unique_on (str "phoneNo") db_jo_al.
Proof.
  apply (uniqueness_preserved env1 db_jo al
           (Responded (created (delete (str "password") (saved_user env1 al)))) db_jo_al);
    [| |exact al_registered].
  - unfold unique_on. apply (bool_decide_unpack _). vm_compute. reflexivity.
  - unfold unique_on. apply (bool_decide_unpack _). vm_compute. reflexivity.
Defined.

Lemma second_registration_conflicts_witness :
  post_register env_race db_jo_al al
  = (Responded (conflict (str "email") (Text (str "Email is already registered"))),
     db_jo_al).
Proof.
  apply (second_registration_conflicts env1 env_race db_jo db_jo_al al
           (created (delete (str "password") (saved_user env1 al))) al_registered);
    reflexivity.
Defined.

Lemma registered_then_listed_witness :
  ∃ d,
    get_users env0 db_jo_al
    = (listing ((delete (str "password") <$> db_jo) ++ [d]), db_jo_al)
    ∧ data (created (delete (str "password") (saved_user env1 al))) = Some (One d)
    ∧ d !! str "password" = None
    ∧ ∀ k, k ∈ [str "firstName"; str "lastName"; str "email"; str "phoneNo"] →
           d !! k = al !! k.
Proof.
  apply (registered_then_listed env1 env0 db_jo db_jo_al al
           (created (delete (str "password") (saved_user env1 al))) al_registered);
    reflexivity.
Defined.

Lemma conflict_on_phoneNo_witness :
  post_register env1 db_jo al_phone_of_jo
  = (Responded (conflict (str "phoneNo")
                  (Text (str "Phone number is already registered"))),
     db_jo).
Proof.
  apply (conflict_on_phoneNo env1 db_jo al_phone_of_jo).
  - vm_compute. reflexivity.
  - reflexivity.
  - exists (saved_user env0 jo). split; [by left | vm_compute; reflexivity].
  - apply Forall_forall. apply (bool_decide_unpack _). vm_compute. reflexivity.
Defined.

Lemma store_validation_error_witness :
  post_register env_rejects db_jo al
  = (Responded (validation_failure
       [{| field := str "email"; message := Text (str "Please enter a valid email") |};
        {| field := str "phoneNo";
           message := Text (str "Phone number must be 10 digits") |}]),
     db_jo).
Proof.
  apply (store_validation_error env_rejects db_jo al store_validation
           [(str "email", str "Please enter a valid email");
            (str "phoneNo", str "Phone number must be 10 digits")]);
    [vm_compute; reflexivity
    | unfold fresh; apply (bool_decide_unpack _); vm_compute; reflexivity
    | reflexivity..].
Defined.

Lemma lookup_failure_witness :
  snd (post_register env_lookup_down db_jo jo) = db_jo
  ∧ fst (post_register env_lookup_down db_jo jo) = Responded server_error.
Proof.
  destruct (lookup_failure env_lookup_down db_jo jo unreachable) as [Hs Hr];
    [vm_compute; reflexivity | reflexivity |].
  split; [exact Hs|]. apply Hr; by vm_compute.
Defined.

Lemma catch_block_throws_witness :
  post_register env_bare_race db_jo al = (Escaped, db_jo).
Proof.
  apply (catch_block_throws env_bare_race db_jo al bare_duplicate_key);
    [vm_compute; reflexivity
    | unfold fresh; apply (bool_decide_unpack _); vm_compute; reflexivity
    | reflexivity | reflexivity | ].
  left. split_and!; [by vm_compute | reflexivity | reflexivity].
Defined.

Lemma responses_well_shaped_witness :
  well_shaped (created (delete (str "password") (saved_user env1 al))).
Proof.
  destruct (responses_well_shaped env1 db_jo al) as [Hr _].
  apply Hr. vm_compute. reflexivity.
Defined.

Lemma stored_record_keys_witness :
  ∃ saved, db_jo_al = db_jo ++ [saved]
           ∧ ∀ k, is_Some (saved !! k) ↔ k ∈ stored_keys.
Proof.
  apply (stored_record_keys env1 db_jo db_jo_al al
           (created (delete (str "password") (saved_user env1 al))) al_registered).
  reflexivity.
Defined.

Lemma reported_texts_witness :
  pairs_of (str "firstName") (<[str "firstName" := JStr []]> jo)
  = [{| field := str "firstName";
        message := JoiDefault (str "firstName") string_empty |}].
Proof.
  destruct (reported_texts (<[str "firstName" := JStr []]> jo) (str "firstName"))
    as (_ & He & _); [repeat constructor|].
  apply He; [by vm_compute | reflexivity].
Defined.

Lemma conflict_detected_witness :
  post_register env1 db_jo_al cy
  = (Responded (conflict (str "email") (Text (str "Email is already registered"))),
     db_jo_al)
  ∨ post_register env1 db_jo_al cy
    = (Responded (conflict (str "phoneNo")
                    (Text (str "Phone number is already registered"))),
       db_jo_al).
Proof.
  apply (conflict_detected env1 db_jo_al cy).
  - vm_compute. reflexivity.
  - reflexivity.
  - exists (saved_user env0 jo). split; [by left|]. right. vm_compute. reflexivity.
Defined.

Lemma registrations_compose_witness :
  ∃ saved saved' r',
    db_jo = [] ++ [saved]
    ∧ post_register env1 db_jo al = (Responded r', [] ++ [saved; saved'])
    ∧ status r' = 201%Z
    ∧ data r' = Some (One (delete (str "password") saved')).
Proof.
  apply (registrations_compose env0 env1 [] db_jo jo al
           (created (delete (str "password") (saved_user env0 jo))) jo_registered).
  - reflexivity.
  - vm_compute. reflexivity.
  - apply Forall_nil_2.
  - by vm_compute.
  - by vm_compute.
  - reflexivity.
  - reflexivity.
Defined.

Lemma stored_records_valid_witness : Forall valid_record db_jo_al.
Proof.
  apply (stored_records_valid env1 db_jo al
           (Responded (created (delete (str "password") (saved_user env1 al)))) db_jo_al);
    [|exact al_registered].
  apply (stored_records_valid env0 [] jo
           (Responded (created (delete (str "password") (saved_user env0 jo)))) db_jo);
    [apply Forall_nil_2 | exact jo_registered].
Defined.

End MoreScenarios.
